(** * Run status sensors: cursor codec, scope matching and the tick loop

    A shallow embedding of
    [dagster/_core/definitions/run_status_sensor_definition.py]:
    the [RunStatusSensorCursor] codec, the [run_status_sensor] decorator,
    [RunStatusSensorDefinition.__init__] with its evaluation function
    [_wrapped_fn], and [RunStatusSensorDefinition.__call__]. *)

From Stdlib Require Import ZArith List String Ascii Bool Lia.
From Stdlib Require Import Decimal DecimalFacts DecimalPos DecimalZ DecimalString.
From Stdlib Require Import Sorted.
Import ListNotations.

Local Open Scope string_scope.
Local Open Scope Z_scope.

Set Implicit Arguments.

(** ** Exceptions and results *)

(** A Python exception as the sensor machinery sees it: its class, its
    message and the frames of its traceback. *)
Record Exn := mkExn {
  exn_class : string;
  exn_message : string;
  exn_trace : list string
}.

(** The exceptions that the code of this module raises or lets through. *)
Inductive Raised :=
| JSONDecodeError
| DeserializationError (msg : string)
| CheckError (msg : string)
| ParserError (text : string)
| KeyError
| DagsterInvalidDefinitionError (msg : string)
| DagsterInvalidInvocationError (msg : string).

Inductive Result (A : Type) :=
| Ok (a : A)
| Raise (e : Raised).
Arguments Ok {A} a.
Arguments Raise {A} e.

Definition bind {A B} (r : Result A) (k : A -> Result B) : Result B :=
  match r with
  | Ok a => k a
  | Raise e => Raise e
  end.

Declare Scope result_scope.
Delimit Scope result_scope with result.
Notation "x <- r ;; k" := (bind r (fun x => k))
  (at level 61, r at next level, right associativity) : result_scope.
Local Open Scope result_scope.

(** ** The cursor *)

Record RunStatusSensorCursor := mkCursor {
  record_id : Z;
  update_timestamp : string
}.

(** ** Serialization

    Modelled from the spec: [dagster._serdes] is imported by the sensor
    module but its code ([serialize_value], [deserialize_value],
    [register_serdes_tuple_fallbacks]) is not among the sources.  The codec
    below follows the specification of the Cursor Codec: a cursor is
    encoded as a string tagged with its type name; decoding accepts the
    primary tag and, through a static alias table, the legacy tag; decoding
    of malformed input fails with a decode error instead of a cursor.  The
    string is the JSON text of a flat dictionary, printed and read
    character by character. *)

Module Serdes.

(** *** JSON text: printing *)

Definition quote_char : ascii := "034"%char.
Definition backslash_char : ascii := "\"%char.

Fixpoint escape (s : string) : string :=
  match s with
  | EmptyString => EmptyString
  | String c s' =>
      if Ascii.eqb c quote_char then String backslash_char (String quote_char (escape s'))
      else if Ascii.eqb c backslash_char
           then String backslash_char (String backslash_char (escape s'))
           else String c (escape s')
  end.

Definition quoted (s : string) : string :=
  String quote_char (escape s ++ String quote_char EmptyString).

Definition string_of_Z (z : Z) : string :=
  match Z.to_int z with
  | Decimal.Pos d => NilEmpty.string_of_uint d
  | Decimal.Neg d => String "-" (NilEmpty.string_of_uint d)
  end.

(** The values a packed named tuple holds here: integers and strings. *)
Inductive jvalue :=
| JInt (z : Z)
| JStr (s : string).

Definition print_value (v : jvalue) : string :=
  match v with
  | JInt z => string_of_Z z
  | JStr s => quoted s
  end.

Definition print_member (kv : string * jvalue) : string :=
  quoted (fst kv) ++ ": " ++ print_value (snd kv).

Fixpoint print_members (kvs : list (string * jvalue)) : string :=
  match kvs with
  | [] => EmptyString
  | [kv] => print_member kv
  | kv :: rest => print_member kv ++ ", " ++ print_members rest
  end.

(** [json.dumps] of a flat dictionary. *)
Definition dumps (kvs : list (string * jvalue)) : string :=
  "{" ++ print_members kvs ++ "}".

(** *** JSON text: lexing *)

Inductive token :=
| TLBrace | TRBrace | TColon | TComma
| TString (s : string)
| TInt (z : Z).

Inductive lex_state :=
| LxIdle
| LxString (acc : string)
| LxEscape (acc : string)
| LxMinus
| LxNumber (neg : bool) (rev_digits : uint).

Definition digit_of_ascii (c : ascii) : option (uint -> uint) :=
  if Ascii.eqb c "0" then Some D0 else
  if Ascii.eqb c "1" then Some D1 else
  if Ascii.eqb c "2" then Some D2 else
  if Ascii.eqb c "3" then Some D3 else
  if Ascii.eqb c "4" then Some D4 else
  if Ascii.eqb c "5" then Some D5 else
  if Ascii.eqb c "6" then Some D6 else
  if Ascii.eqb c "7" then Some D7 else
  if Ascii.eqb c "8" then Some D8 else
  if Ascii.eqb c "9" then Some D9 else None.

Definition is_space (c : ascii) : bool :=
  Ascii.eqb c " " || Ascii.eqb c "009" || Ascii.eqb c "010" || Ascii.eqb c "013".

Definition unescape (c : ascii) : option ascii :=
  if Ascii.eqb c quote_char then Some quote_char else
  if Ascii.eqb c backslash_char then Some backslash_char else
  if Ascii.eqb c "/" then Some "/"%char else
  if Ascii.eqb c "n" then Some "010"%char else
  if Ascii.eqb c "t" then Some "009"%char else
  if Ascii.eqb c "r" then Some "013"%char else None.

Definition snoc (s : string) (c : ascii) : string := s ++ String c EmptyString.

Definition number_token (neg : bool) (rev_digits : uint) : token :=
  let d := Decimal.rev rev_digits in
  TInt (Z.of_int (if neg then Decimal.Neg d else Decimal.Pos d)).

(** What the lexer does with a character met between two tokens. *)
Definition idle_step (c : ascii) : option (list token * lex_state) :=
  if is_space c then Some ([], LxIdle) else
  if Ascii.eqb c "{" then Some ([TLBrace], LxIdle) else
  if Ascii.eqb c "}" then Some ([TRBrace], LxIdle) else
  if Ascii.eqb c ":" then Some ([TColon], LxIdle) else
  if Ascii.eqb c "," then Some ([TComma], LxIdle) else
  if Ascii.eqb c quote_char then Some ([], LxString EmptyString) else
  if Ascii.eqb c "-" then Some ([], LxMinus) else
  match digit_of_ascii c with
  | Some d => Some ([], LxNumber false (d Nil))
  | None => None
  end.

Definition lex_step (st : lex_state) (c : ascii) : option (list token * lex_state) :=
  match st with
  | LxIdle => idle_step c
  | LxString acc =>
      if Ascii.eqb c quote_char then Some ([TString acc], LxIdle)
      else if Ascii.eqb c backslash_char then Some ([], LxEscape acc)
      else Some ([], LxString (snoc acc c))
  | LxEscape acc =>
      match unescape c with
      | Some c' => Some ([], LxString (snoc acc c'))
      | None => None
      end
  | LxMinus =>
      match digit_of_ascii c with
      | Some d => Some ([], LxNumber true (d Nil))
      | None => None
      end
  | LxNumber neg ds =>
      match digit_of_ascii c with
      | Some d => Some ([], LxNumber neg (d ds))
      | None =>
          match idle_step c with
          | Some (toks, st') => Some (number_token neg ds :: toks, st')
          | None => None
          end
      end
  end.

Definition lex_end (st : lex_state) : option (list token) :=
  match st with
  | LxIdle => Some []
  | LxNumber neg ds => Some [number_token neg ds]
  | _ => None
  end.

(** The tokens [toks], and then those of [r] if there are any. *)
Definition push (toks : list token) (r : option (list token)) : option (list token) :=
  match toks with
  | [] => r
  | _ :: _ => option_map (List.app toks) r
  end.

Fixpoint lex (st : lex_state) (s : string) : option (list token) :=
  match s with
  | EmptyString => lex_end st
  | String c s' =>
      match lex_step st c with
      | Some (toks, st') => push toks (lex st' s')
      | None => None
      end
  end.

(** *** JSON text: parsing a flat dictionary *)

Definition value_of_token (t : token) : option jvalue :=
  match t with
  | TString s => Some (JStr s)
  | TInt z => Some (JInt z)
  | _ => None
  end.

Fixpoint parse_members (toks : list token) : option (list (string * jvalue)) :=
  match toks with
  | TString k :: TColon :: v :: TRBrace :: [] =>
      option_map (fun v' => [(k, v')]) (value_of_token v)
  | TString k :: TColon :: v :: TComma :: rest =>
      match value_of_token v, parse_members rest with
      | Some v', Some kvs => Some ((k, v') :: kvs)
      | _, _ => None
      end
  | _ => None
  end.

Definition parse_object (toks : list token) : option (list (string * jvalue)) :=
  match toks with
  | TLBrace :: TRBrace :: [] => Some []
  | TLBrace :: rest => parse_members rest
  | _ => None
  end.

(** [json.loads], on the texts that are flat dictionaries. *)
Definition loads (s : string) : option (list (string * jvalue)) :=
  match lex LxIdle s with
  | Some toks => parse_object toks
  | None => None
  end.

(** *** Packing named tuples *)

Definition cursor_class_name : string := "RunStatusSensorCursor".

(** The alias table that
    [register_serdes_tuple_fallbacks({"PipelineSensorCursor": RunStatusSensorCursor})]
    fills. *)
Definition tuple_fallbacks : list (string * string) :=
  [("PipelineSensorCursor", cursor_class_name)].

Fixpoint lookup {A} (k : string) (kvs : list (string * A)) : option A :=
  match kvs with
  | [] => None
  | (k', v) :: rest => if String.eqb k k' then Some v else lookup k rest
  end.

(** The class a type tag stands for: the alias table first, the
    whitelisted name itself otherwise. *)
Definition resolve_class (tag : string) : option string :=
  match lookup tag tuple_fallbacks with
  | Some cls => Some cls
  | None => if String.eqb tag cursor_class_name then Some cursor_class_name else None
  end.

Definition pack_as (tag : string) (c : RunStatusSensorCursor) : list (string * jvalue) :=
  [("__class__", JStr tag);
   ("record_id", JInt (record_id c));
   ("update_timestamp", JStr (update_timestamp c))].

Definition unpack (kvs : list (string * jvalue)) : Result RunStatusSensorCursor :=
  match lookup "__class__" kvs with
  | Some (JStr tag) =>
      match resolve_class tag with
      | Some _ =>
          match lookup "record_id" kvs, lookup "update_timestamp" kvs with
          | Some (JInt z), Some (JStr ts) => Ok (mkCursor z ts)
          | _, _ => Raise (DeserializationError "bad fields")
          end
      | None => Raise (DeserializationError "unknown class")
      end
  | _ => Raise (DeserializationError "not a RunStatusSensorCursor")
  end.

(** The encoding of a cursor under the type name [tag]. *)
Definition serialize_as (tag : string) (c : RunStatusSensorCursor) : string :=
  dumps (pack_as tag c).

(** Modelled from the spec: [serialize_value] of [dagster._serdes], which
    is not among the sources; the [encode] of the Cursor Codec. *)
Definition serialize_value (c : RunStatusSensorCursor) : string :=
  serialize_as cursor_class_name c.

(** Modelled from the spec: [deserialize_value] of [dagster._serdes], which
    is not among the sources; the [decode] of the Cursor Codec.  A text
    that is no JSON dictionary is a [JSONDecodeError]; a dictionary that is
    no cursor is a [DeserializationError]. *)
Definition deserialize_value (json_str : string) : Result RunStatusSensorCursor :=
  match loads json_str with
  | Some kvs => unpack kvs
  | None => Raise JSONDecodeError
  end.

(** *** The tokens of a dictionary *)

Definition token_of_value (v : jvalue) : token :=
  match v with
  | JInt z => TInt z
  | JStr s => TString s
  end.

Definition member_tokens (kv : string * jvalue) : list token :=
  [TString (fst kv); TColon; token_of_value (snd kv)].

Fixpoint members_tokens (kvs : list (string * jvalue)) : list token :=
  match kvs with
  | [] => []
  | [kv] => member_tokens kv
  | kv :: rest => (member_tokens kv ++ TComma :: members_tokens rest)%list
  end.

End Serdes.

(** [RunStatusSensorCursor.is_valid]: the two exceptions that
    [deserialize_value] raises are the two that the method catches. *)
Definition is_valid (json_str : string) : bool :=
  match Serdes.deserialize_value json_str with
  | Ok _ => true
  | Raise _ => false
  end.

(** [RunStatusSensorCursor.to_json] *)
Definition to_json (c : RunStatusSensorCursor) : string :=
  Serdes.serialize_value c.

(** [RunStatusSensorCursor.from_json] *)
Definition from_json (json_str : string) : Result RunStatusSensorCursor :=
  Serdes.deserialize_value json_str.

(** ** The world outside the sensor module

    Run statuses and event types are enumerations of
    [dagster._core.storage.pipeline_run] and [dagster._core.events]; they
    are carried by their enumeration value.  The helpers on time and the
    table from run statuses to event types are taken as parameters. *)

Definition DagsterRunStatus := string.
Definition DagsterEventType := string.

Class Externals := {
  (** the float seconds of [EventLogEntry.timestamp] *)
  Timestamp : Type;
  (** [datetime] *)
  DateTime : Type;
  (** [dagster._utils.utc_datetime_from_timestamp] *)
  utc_datetime_from_timestamp : Timestamp -> DateTime;
  (** [datetime.isoformat] *)
  isoformat : DateTime -> string;
  (** [pendulum.parse]; [None] when it raises on a text that is no date *)
  pendulum_parse : string -> option DateTime;
  (** [dagster._core.events.PIPELINE_RUN_STATUS_TO_EVENT_TYPE]; [None]
      for a status that is no key of the table *)
  PIPELINE_RUN_STATUS_TO_EVENT_TYPE : DagsterRunStatus -> option DagsterEventType
}.

(** ** Selectors and monitored jobs *)

Record RepositorySelector := mkRepositorySelector {
  rs_location_name : string;
  rs_repository_name : string
}.

Record JobSelector := mkJobSelector {
  js_location_name : string;
  js_repository_name : string;
  js_job_name : string
}.

Record CodeLocationSelector := mkCodeLocationSelector {
  cl_location_name : string
}.

(** [CodeLocationSelector.to_repository_selector]: the repository selector
    of the location, with the repository name ["__repository__"]. *)
Definition to_repository_selector (s : CodeLocationSelector) : RepositorySelector :=
  mkRepositorySelector (cl_location_name s) "__repository__".

(** An entry of [monitored_jobs]: a job of the current repository
    ([PipelineDefinition], [GraphDefinition] or
    [UnresolvedAssetJobDefinition], known by its [name]) or a selector. *)
Inductive MonitoredJob :=
| JobDef (name : string)
| RepoSel (s : RepositorySelector)
| JobSel (s : JobSelector)
| CodeLocSel (s : CodeLocationSelector).

Definition repository_selector_eqb (a b : RepositorySelector) : bool :=
  String.eqb (rs_location_name a) (rs_location_name b)
  && String.eqb (rs_repository_name a) (rs_repository_name b).

Definition job_selector_eqb (a b : JobSelector) : bool :=
  String.eqb (js_location_name a) (js_location_name b)
  && String.eqb (js_repository_name a) (js_repository_name b)
  && String.eqb (js_job_name a) (js_job_name b).

(** Python's [x in xs] *)
Definition py_in {A} (eqb : A -> A -> bool) (x : A) (xs : list A) : bool :=
  existsb (eqb x) xs.

(** ** Runs *)

Record RepositoryLocationOrigin := mkRepositoryLocationOrigin {
  location_name : string
}.

Record ExternalRepositoryOrigin := mkExternalRepositoryOrigin {
  repository_location_origin : RepositoryLocationOrigin;
  repository_name : string
}.

Record ExternalPipelineOrigin := mkExternalPipelineOrigin {
  external_repository_origin : ExternalRepositoryOrigin
}.

Record DagsterRun := mkDagsterRun {
  run_id : string;
  pipeline_name : string;
  external_pipeline_origin : option ExternalPipelineOrigin
}.

(** ** Outputs of a tick *)

(** [SerializableErrorInfo] *)
Record SerializableErrorInfo := mkSerializableErrorInfo {
  sei_message : string;
  sei_stack : list string;
  sei_cls_name : string
}.

(** What a sensor evaluation yields.  A [RunRequest] is carried by its run
    key. *)
Inductive SensorOutput :=
| RunRequest (run_key : string)
| SkipReason (skip_message : string)
| PipelineRunReaction (pipeline_run : DagsterRun) (run_status : DagsterRunStatus)
    (error : option SerializableErrorInfo).

(** What the user function hands back when it does not raise. *)
Inductive UserReturn :=
| RetNone
| RetOutput (o : SensorOutput)
    (** a [RunRequest], [SkipReason] or [PipelineRunReaction] *)
| RetIterable (items : list SensorOutput) (stop : option Exn).
    (** anything else, consumed by [yield from]: the items it gives, and
        the exception that ends the iteration if one does (a value that is
        not iterable gives no item and a [TypeError]) *)

Inductive UserResult :=
| URaise (e : Exn)
| UReturn (r : UserReturn).

(** [user_code_error_boundary] turns an exception of the user function
    into the error class of the boundary, keeping the original exception. *)
Record RunStatusSensorExecutionError := mkRunStatusSensorExecutionError {
  boundary_message : string;
  original_exc_info : Exn
}.

(** Modelled from the spec: [dagster._core.errors.user_code_error_boundary]
    is not among the sources.  The Evaluator Invoker's contract is that any
    exception raised by user logic is caught and converted, never re-raised
    past the boundary. *)
Definition user_code_error_boundary (msg : string) (e : Exn)
  : RunStatusSensorExecutionError :=
  mkRunStatusSensorExecutionError msg e.

(** Modelled from the spec:
    [dagster._utils.error.serializable_error_info_from_exc_info] is not
    among the sources.  The error descriptor holds the message and the
    structured trace of the exception. *)
Definition serializable_error_info_from_exc_info (e : Exn) : SerializableErrorInfo :=
  mkSerializableErrorInfo (exn_class e ++ ": " ++ exn_message e) (exn_trace e) (exn_class e).

(** [check.not_none] of [dagster._check], which is not among the sources:
    the value, or a [CheckError] when it is [None].  (Where the loop uses
    it, an attribute of the value is read next, which cannot succeed on
    [None] either.) *)
Definition not_none {A} (v : option A) : Result A :=
  match v with
  | Some a => Ok a
  | None => Raise (CheckError "Expected non-None value")
  end.

Section Sensor.

Context `{Externals}.

(** *** Events, run records and the instance *)

Record DagsterEvent := mkDagsterEvent {
  event_type_value : DagsterEventType;
  event_message : string
}.

Record EventLogEntry := mkEventLogEntry {
  entry_run_id : string;
  timestamp : Timestamp;
  dagster_event : option DagsterEvent
}.

Record EventLogRecord := mkEventLogRecord {
  storage_id : Z;
  event_log_entry : EventLogEntry
}.

Record RunRecord := mkRunRecord {
  dagster_run : DagsterRun;
  run_update_timestamp : DateTime
}.

Record DagsterInstance := mkDagsterInstance {
  event_log : list EventLogRecord;
  run_storage : list RunRecord
}.

Record RunShardedEventsCursor := mkRunShardedEventsCursor {
  cursor_id : Z;
  run_updated_after : DateTime
}.

Record EventRecordsFilter := mkEventRecordsFilter {
  filter_event_type : DagsterEventType;
  after_cursor : option RunShardedEventsCursor
}.

Definition dagster_event_type (e : EventLogEntry) : option DagsterEventType :=
  option_map event_type_value (dagster_event e).

Definition has_event_type (ty : DagsterEventType) (r : EventLogRecord) : bool :=
  match dagster_event_type (event_log_entry r) with
  | Some ty' => String.eqb ty' ty
  | None => false
  end.

Definition is_after (after : option RunShardedEventsCursor) (r : EventLogRecord) : bool :=
  match after with
  | Some c => cursor_id c <? storage_id r
  | None => true
  end.

Definition record_selected (flt : EventRecordsFilter) (r : EventLogRecord) : bool :=
  has_event_type (filter_event_type flt) r && is_after (after_cursor flt) r.

Fixpoint insert_by_id (r : EventLogRecord) (l : list EventLogRecord) : list EventLogRecord :=
  match l with
  | [] => [r]
  | x :: l' => if storage_id r <=? storage_id x then r :: l else x :: insert_by_id r l'
  end.

Definition sort_by_id (l : list EventLogRecord) : list EventLogRecord :=
  fold_right insert_by_id [] l.

Definition take_limit {A} (limit : option nat) (l : list A) : list A :=
  match limit with
  | Some n => firstn n l
  | None => l
  end.

(** Modelled from the spec: [DagsterInstance.get_event_records] is not
    among the sources.  The Event Store returns the events of the type
    asked for whose id is greater than the id of the cursor given, ordered
    by id (ascending or descending), at most [limit] of them. *)
Definition get_event_records (instance : DagsterInstance) (flt : EventRecordsFilter)
    (ascending : bool) (limit : option nat) : list EventLogRecord :=
  let selected := sort_by_id (filter (record_selected flt) (event_log instance)) in
  take_limit limit (if ascending then selected else List.rev selected).

(** Modelled from the spec: [DagsterInstance.get_run_records] is not among
    the sources.  The Run Record Store is looked up by run id; the records
    of the runs whose id is among [run_ids] are returned. *)
Definition get_run_records (instance : DagsterInstance) (run_ids : list string)
  : list RunRecord :=
  filter (fun rr => py_in String.eqb (run_id (dagster_run rr)) run_ids) (run_storage instance).

(** *** Contexts *)

Record SensorEvaluationContext := mkSensorEvaluationContext {
  ctx_cursor : option string;
  ctx_instance : DagsterInstance;
  ctx_repository_name : option string
}.

Record RunStatusSensorContext := mkRunStatusSensorContext {
  rs_sensor_name : string;
  rs_dagster_run : DagsterRun;
  rs_dagster_event : DagsterEvent;
  rs_instance : DagsterInstance;
  rs_context : option SensorEvaluationContext
}.

(** The user function: its [__name__], the names of its declared
    parameters and what a call does, with the context as argument or
    with no argument.  What Python itself does with a call whose
    arguments do not fit the signature (a [TypeError]) is part of
    [fn_body]. *)
Record UserFn := mkUserFn {
  fn_name : string;
  fn_params : list string;
  fn_body : option RunStatusSensorContext -> UserResult
}.

(** [has_at_least_one_parameter] *)
Definition has_at_least_one_parameter (fn : UserFn) : bool :=
  match fn_params fn with
  | [] => false
  | _ :: _ => true
  end.

(** [get_function_params(fn)[0].name], where the function has a
    parameter. *)
Definition first_param_name (fn : UserFn) : string :=
  match fn_params fn with
  | p :: _ => p
  | [] => EmptyString
  end.

(** *** The sensor definition *)

Record RunStatusSensorDefinition := mkRunStatusSensorDefinition {
  name : string;
  run_status : DagsterRunStatus;
  event_type : DagsterEventType;
  _run_status_sensor_fn : UserFn;
  monitored_jobs : list MonitoredJob;
  monitor_all_repositories : bool;
  other_repos : list RepositorySelector;
  other_repo_jobs : list JobSelector;
  current_repo_jobs : list MonitoredJob
}.

Definition truthy {A} (l : list A) : bool :=
  match l with
  | [] => false
  | _ :: _ => true
  end.

Definition repository_selectors (jobs : list MonitoredJob) : list RepositorySelector :=
  flat_map (fun x => match x with RepoSel s => [s] | _ => [] end) jobs.

Definition job_selectors (jobs : list MonitoredJob) : list JobSelector :=
  flat_map (fun x => match x with JobSel s => [s] | _ => [] end) jobs.

Definition is_selector (x : MonitoredJob) : bool :=
  match x with
  | JobSel _ | RepoSel _ => true
  | _ => false
  end.

(** [x.name] over [current_repo_jobs] *)
Definition job_names (jobs : list MonitoredJob) : list string :=
  flat_map (fun x => match x with JobDef n => [n] | _ => [] end) jobs.

(** [RunStatusSensorDefinition.__init__], up to the definition of
    [_wrapped_fn]. *)
Definition __init__ (name : string) (run_status : DagsterRunStatus) (fn : UserFn)
    (monitored_jobs : option (list MonitoredJob)) (monitor_all_repositories : bool)
  : Result RunStatusSensorDefinition :=
  let monitored_jobs :=
    map (fun job => match job with
                    | CodeLocSel s => RepoSel (to_repository_selector s)
                    | _ => job
                    end)
        (match monitored_jobs with Some l => l | None => [] end) in
  match PIPELINE_RUN_STATUS_TO_EVENT_TYPE run_status with
  | None => Raise KeyError
  | Some event_type =>
      let other_repos :=
        if truthy monitored_jobs then repository_selectors monitored_jobs else [] in
      let other_repo_jobs :=
        if truthy monitored_jobs then job_selectors monitored_jobs else [] in
      let current_repo_jobs :=
        if truthy monitored_jobs
        then filter (fun x => negb (is_selector x)) monitored_jobs else [] in
      Ok (mkRunStatusSensorDefinition name run_status event_type fn monitored_jobs
            monitor_all_repositories other_repos other_repo_jobs current_repo_jobs)
  end.

(** The truth value of an optional list: [None] and the empty list are
    false. *)
Definition opt_truthy {A} (l : option (list A)) : bool :=
  match l with
  | Some l' => truthy l'
  | None => false
  end.

(** [run_status_sensor(...)(fn)]: the decorator applied to [fn]. *)
Definition run_status_sensor (run_status : DagsterRunStatus) (name : option string)
    (monitored_jobs job_selection : option (list MonitoredJob))
    (monitor_all_repositories : bool) (fn : UserFn)
  : Result RunStatusSensorDefinition :=
  let sensor_name :=
    match name with
    | Some (String c n) => String c n
    | _ => fn_name fn
    end in
  let jobs := if opt_truthy monitored_jobs then monitored_jobs else job_selection in
  (* the exception is built and dropped: the statement has no [raise] *)
  let _ :=
    if opt_truthy jobs && monitor_all_repositories
    then Some (DagsterInvalidDefinitionError
                 ("Cannot specify both monitor_all_repositories and "
                  ++ (if opt_truthy monitored_jobs then "monitored_jobs" else "job_selection")
                  ++ "."))
    else None in
  __init__ sensor_name run_status fn jobs monitor_all_repositories.

(** *** The scope of a run *)

(** The computation of [job_match] in the loop of [_wrapped_fn]. *)
Definition job_match (sensor : RunStatusSensorDefinition)
    (context : SensorEvaluationContext) (pipeline_run : DagsterRun) : Result bool :=
  let job_match := false in
  let job_match := if monitor_all_repositories sensor then true else job_match in
  let job_match :=
    if negb job_match
       && match external_pipeline_origin pipeline_run with
          | Some origin =>
              match ctx_repository_name context with
              | Some current =>
                  String.eqb (repository_name (external_repository_origin origin)) current
              | None => false
              end
          | None => false
          end
    then
      if truthy (monitored_jobs sensor)
      then
        if py_in String.eqb (pipeline_name pipeline_run)
             (job_names (current_repo_jobs sensor))
        then true else job_match
      else true
    else job_match in
  if negb job_match then
    origin <- not_none (external_pipeline_origin pipeline_run);;
    let external_repository_origin := external_repository_origin origin in
    let run_job_selector :=
      mkJobSelector
        (location_name (repository_location_origin external_repository_origin))
        (repository_name external_repository_origin)
        (pipeline_name pipeline_run) in
    let job_match :=
      if py_in job_selector_eqb run_job_selector (other_repo_jobs sensor)
      then true else job_match in
    let run_repo_selector :=
      mkRepositorySelector
        (location_name (repository_location_origin external_repository_origin))
        (repository_name external_repository_origin) in
    let job_match :=
      if py_in repository_selector_eqb run_repo_selector (other_repos sensor)
      then true else job_match in
    Ok job_match
  else Ok job_match.

(** *** One tick as a trace of effects *)

(** What [_wrapped_fn] does that can be seen from outside, in order: it
    looks up the run of an event ([Inspect], at [get_run_records]), calls
    the user function for an event, updates the cursor of the context and
    yields. *)
Inductive Effect :=
| Inspect (event_record : EventLogRecord)
| CallUser (event_record : EventLogRecord) (context : RunStatusSensorContext)
| UpdateCursor (cursor : string)
| Yield (o : SensorOutput).

(** A tick: its effects, and the exception that ended it if one did. *)
Record TickResult := mkTickResult {
  effects : list Effect;
  raised : option Raised
}.

Definition finished : TickResult := mkTickResult [] None.
Definition raise (e : Raised) : TickResult := mkTickResult [] (Some e).
Definition emit (es : list Effect) (t : TickResult) : TickResult :=
  mkTickResult (es ++ effects t) (raised t).

(** How one pass through the body of the loop ends: at [continue] or at
    the end of the body, at [return], or with an exception. *)
Inductive Control :=
| Continue
| Return
| Raising (e : Raised).

Definition boundary_msg (name : string) : string :=
  "Error occurred during the execution sensor "
  ++ String Serdes.quote_char (name ++ String Serdes.quote_char ".").

(** The [except RunStatusSensorExecutionError] clause. *)
Definition captured (name : string) (e : Exn) : SerializableErrorInfo :=
  serializable_error_info_from_exc_info
    (original_exc_info (user_code_error_boundary (boundary_msg name) e)).

(** The call [run_status_sensor_fn(RunStatusSensorContext(...))].  The
    constructor of the context checks that the event is a
    [DagsterEvent]. *)
Definition invoke (sensor : RunStatusSensorDefinition) (context : SensorEvaluationContext)
    (pipeline_run : DagsterRun) (event_record : EventLogRecord)
  : list Effect * UserResult :=
  match dagster_event (event_log_entry event_record) with
  | Some ev =>
      let ctx := mkRunStatusSensorContext (name sensor) pipeline_run ev
                   (ctx_instance context) (Some context) in
      ([CallUser event_record ctx], fn_body (_run_status_sensor_fn sensor) (Some ctx))
  | None =>
      ([], URaise (mkExn "CheckError" "Param dagster_event is not a DagsterEvent" []))
  end.

Definition cursor_json (storage_id : Z) (ts : DateTime) : string :=
  to_json (mkCursor storage_id (isoformat ts)).

(** The body of the loop from [serializable_error = None] on, for an
    event that matched. *)
Definition react (sensor : RunStatusSensorDefinition) (context : SensorEvaluationContext)
    (pipeline_run : DagsterRun) (update_timestamp : DateTime)
    (event_record : EventLogRecord) : list Effect * Control :=
  let cursor := cursor_json (storage_id event_record) update_timestamp in
  let after_try (serializable_error : option SerializableErrorInfo) :=
    [UpdateCursor cursor;
     Yield (PipelineRunReaction pipeline_run (run_status sensor) serializable_error)] in
  let (called, sensor_return) := invoke sensor context pipeline_run event_record in
  match sensor_return with
  | URaise e => ((called ++ after_try (Some (captured (name sensor) e)))%list, Continue)
  | UReturn RetNone => ((called ++ after_try None)%list, Continue)
  | UReturn (RetOutput o) => ((called ++ [UpdateCursor cursor; Yield o])%list, Return)
  | UReturn (RetIterable items None) =>
      ((called ++ UpdateCursor cursor :: map Yield items)%list, Return)
  | UReturn (RetIterable items (Some e)) =>
      ((called ++ (UpdateCursor cursor :: map Yield items)
               ++ after_try (Some (captured (name sensor) e)))%list, Continue)
  end.

(** The body of the loop [for event_record in event_records]. *)
Definition visit (sensor : RunStatusSensorDefinition) (context : SensorEvaluationContext)
    (event_record : EventLogRecord) : list Effect * Control :=
  let event_log_entry := event_log_entry event_record in
  let storage_id := storage_id event_record in
  let run_records :=
    get_run_records (ctx_instance context) [entry_run_id event_log_entry] in
  match run_records with
  | [run_record] =>
      let pipeline_run := dagster_run run_record in
      let update_timestamp := run_update_timestamp run_record in
      match job_match sensor context pipeline_run with
      | Raise e => ([Inspect event_record], Raising e)
      | Ok false =>
          ([Inspect event_record;
            UpdateCursor (cursor_json storage_id update_timestamp)], Continue)
      | Ok true =>
          let (es, k) := react sensor context pipeline_run update_timestamp event_record in
          (Inspect event_record :: es, k)
      end
  | _ =>
      let approximate_update_timestamp :=
        utc_datetime_from_timestamp (timestamp event_log_entry) in
      ([Inspect event_record;
        UpdateCursor (cursor_json storage_id approximate_update_timestamp)], Continue)
  end.

(** The loop of [_wrapped_fn]. *)
Fixpoint scan (sensor : RunStatusSensorDefinition) (context : SensorEvaluationContext)
    (event_records : list EventLogRecord) : TickResult :=
  match event_records with
  | [] => finished
  | event_record :: rest =>
      let (es, k) := visit sensor context event_record in
      match k with
      | Continue => emit es (scan sensor context rest)
      | Return => emit es finished
      | Raising e => emit es (raise e)
      end
  end.

(** [str] of a cursor, as the f-string of the skip message prints it; the
    text of the timestamp is put between single quotes as it is. *)
Definition cursor_str (c : RunStatusSensorCursor) : string :=
  "RunStatusSensorCursor(record_id=" ++ Serdes.string_of_Z (record_id c)
  ++ ", update_timestamp='" ++ update_timestamp c ++ "')".

(** The first branch of [_wrapped_fn]: initiate the cursor. *)
Definition initiate (sensor : RunStatusSensorDefinition) (now : DateTime)
    (context : SensorEvaluationContext) : TickResult :=
  let most_recent_event_records :=
    get_event_records (ctx_instance context)
      (mkEventRecordsFilter (event_type sensor) None) false (Some 1%nat) in
  let most_recent_event_id :=
    match most_recent_event_records with
    | [r] => storage_id r
    | _ => -1
    end in
  let new_cursor := mkCursor most_recent_event_id (isoformat now) in
  emit [UpdateCursor (to_json new_cursor);
        Yield (SkipReason ("Initiating " ++ name sensor ++ ". Set cursor to "
                           ++ cursor_str new_cursor))]
       finished.

(** The events that a scanning tick fetches. *)
Definition fetch (sensor : RunStatusSensorDefinition) (context : SensorEvaluationContext)
    (record_id : Z) (run_updated_after : DateTime) : list EventLogRecord :=
  get_event_records (ctx_instance context)
    (mkEventRecordsFilter (event_type sensor)
       (Some (mkRunShardedEventsCursor record_id run_updated_after)))
    true (Some 5%nat).

(** [_wrapped_fn], run to the end of the generator; [now] is
    [pendulum.now("UTC")]. *)
Definition _wrapped_fn (sensor : RunStatusSensorDefinition) (now : DateTime)
    (context : SensorEvaluationContext) : TickResult :=
  match ctx_cursor context with
  | None => initiate sensor now context
  | Some cursor =>
      if negb (is_valid cursor) then initiate sensor now context
      else
        match from_json cursor with
        | Raise e => raise e
        | Ok c =>
            match pendulum_parse (update_timestamp c) with
            | None => raise (ParserError (update_timestamp c))
            | Some run_updated_after =>
                scan sensor context (fetch sensor context (record_id c) run_updated_after)
            end
        end
  end.

(** *** Reading a trace *)

Definition cursor_updates (es : list Effect) : list string :=
  flat_map (fun e => match e with UpdateCursor c => [c] | _ => [] end) es.

Definition outputs (es : list Effect) : list SensorOutput :=
  flat_map (fun e => match e with Yield o => [o] | _ => [] end) es.

Definition inspected (es : list Effect) : list EventLogRecord :=
  flat_map (fun e => match e with Inspect r => [r] | _ => [] end) es.

(** The events that the user function was called for. *)
Definition evaluated (es : list Effect) : list EventLogRecord :=
  flat_map (fun e => match e with CallUser r _ => [r] | _ => [] end) es.

(** The cursor of the context once the effects have taken place. *)
Definition cursor_after (cursor : option string) (es : list Effect) : option string :=
  fold_left (fun _ c => Some c) (cursor_updates es) cursor.

(** The [record_id] that a stored cursor holds, if it holds one. *)
Definition stored_record_id (cursor : option string) : option Z :=
  match cursor with
  | Some s =>
      match from_json s with
      | Ok c => Some (record_id c)
      | Raise _ => None
      end
  | None => None
  end.

(** *** Ticks in sequence *)

(** What changes from one tick to the next: the time, the instance and the
    repository the sensor is evaluated in. *)
Record TickEnv := mkTickEnv {
  env_now : DateTime;
  env_instance : DagsterInstance;
  env_repository_name : option string
}.

Definition tick (sensor : RunStatusSensorDefinition) (cursor : option string)
    (env : TickEnv) : TickResult :=
  _wrapped_fn sensor (env_now env)
    (mkSensorEvaluationContext cursor (env_instance env) (env_repository_name env)).

(** Modelled from the spec: the Tick Driver is not among the sources.  It
    invokes one tick after the other and persists the cursor of the
    context after each.  What it persists when a tick raised is left
    open by the specification: [keep_on_raise] tells whether the updates
    made before the exception are kept. *)
Definition persisted_after (keep_on_raise : bool) (cursor : option string)
    (t : TickResult) : option string :=
  match raised t with
  | None => cursor_after cursor (effects t)
  | Some _ => if keep_on_raise then cursor_after cursor (effects t) else cursor
  end.

(** Modelled from the spec: the Tick Driver invoking the ticks of a sensor
    one after the other, each from the cursor persisted after the one
    before; the result lists, for every tick, the cursor it started from
    and what it did. *)
Fixpoint run_ticks (keep_on_raise : bool) (sensor : RunStatusSensorDefinition)
    (cursor : option string) (envs : list TickEnv) : list (option string * TickResult) :=
  match envs with
  | [] => []
  | env :: envs' =>
      let t := tick sensor cursor env in
      (cursor, t) :: run_ticks keep_on_raise sensor (persisted_after keep_on_raise cursor t) envs'
  end.

(** *** Direct invocation *)

(** A value passed to [__call__]. *)
Inductive PyValue :=
| PyNone
| PyContext (c : RunStatusSensorContext)
| PyOther (repr : string).

(** [check.opt_inst_param(v, name, RunStatusSensorContext)] of
    [dagster._check], which is not among the sources: [None] and instances
    of the class pass, anything else is a [CheckError]. *)
Definition opt_inst_param (v : PyValue) (param_name : string)
  : Result (option RunStatusSensorContext) :=
  match v with
  | PyNone => Ok None
  | PyContext c => Ok (Some c)
  | PyOther _ => Raise (CheckError ("Param " ++ param_name ++ " is not a RunStatusSensorContext"))
  end.

(** The end of a direct invocation: the calls of the user function it
    made, and an exception of the invocation machinery or what the user
    function did. *)
Record Invocation := mkInvocation {
  calls : list (option RunStatusSensorContext);
  outcome : Result UserResult
}.

Definition refuse (e : Raised) : Invocation := mkInvocation [] (Raise e).

Definition apply_fn (fn : UserFn) (arg : option RunStatusSensorContext) : Invocation :=
  mkInvocation [arg] (Ok (fn_body fn arg)).

(** [RunStatusSensorDefinition.__call__], with its positional arguments
    [args] and its keyword arguments [kwargs]. *)
Definition __call__ (self : RunStatusSensorDefinition)
    (args : list PyValue) (kwargs : list (string * PyValue)) : Invocation :=
  let fn := _run_status_sensor_fn self in
  if has_at_least_one_parameter fn then
    if (List.length args + List.length kwargs =? 0)%nat then
      refuse (DagsterInvalidInvocationError
        "Run status sensor function expected context argument, but no context argument was provided when invoking.")
    else if (1 <? List.length args + List.length kwargs)%nat then
      refuse (DagsterInvalidInvocationError
        "Run status sensor invocation received multiple arguments. Only a first positional context parameter should be provided when invoking.")
    else
      let context_param_name := first_param_name fn in
      let checked :=
        match args with
        | arg0 :: _ => opt_inst_param arg0 context_param_name
        | [] =>
            match Serdes.lookup context_param_name kwargs with
            | None =>
                Raise (DagsterInvalidInvocationError
                  ("Run status sensor invocation expected argument '"
                   ++ context_param_name ++ "'."))
            | Some v => opt_inst_param v context_param_name
            end
        end in
      match checked with
      | Raise e => refuse e
      | Ok None =>
          refuse (DagsterInvalidInvocationError
            "Context must be provided for direct invocation of run status sensor.")
      | Ok (Some context) => apply_fn fn (Some context)
      end
  else
    if (0 <? List.length args + List.length kwargs)%nat then
      refuse (DagsterInvalidInvocationError
        "Run status sensor decorated function has no arguments, but arguments were provided to invocation.")
    else apply_fn fn None.

(** *** The vocabulary of the properties *)

Definition id_le (a b : EventLogRecord) : Prop := storage_id a <= storage_id b.

(** The id that the first branch of the tick reads: the greatest id among
    the events of the type, or [-1] when the log holds none. *)
Definition is_latest_event_id (instance : DagsterInstance) (ty : DagsterEventType)
    (m : Z) : Prop :=
  (exists r, In r (event_log instance) /\ has_event_type ty r = true /\ storage_id r = m
             /\ forall x, In x (event_log instance) -> has_event_type ty x = true ->
                          storage_id x <= m)
  \/ (m = -1 /\ forall x, In x (event_log instance) -> has_event_type ty x = false).

(** The text [s] is a cursor at the event of id [id]. *)
Definition writes_id (id : Z) (s : string) : Prop :=
  exists ts, s = to_json (mkCursor id ts).

(** [a] is not ahead of [b]: a cursor that holds no record id is behind
    every cursor. *)
Definition cursor_le (a b : option string) : Prop :=
  match stored_record_id a, stored_record_id b with
  | Some x, Some y => x <= y
  | None, _ => True
  | Some _, None => False
  end.

(** Updates that go up from the record id [b]. *)
Fixpoint climbs_from (b : Z) (updates : list string) : Prop :=
  match updates with
  | [] => True
  | s :: rest => exists id, writes_id id s /\ b <= id /\ climbs_from id rest
  end.

Inductive Verdict :=
| Unresolved
| NoMatch (run_record : RunRecord)
| Matched (run_record : RunRecord)
| Broken (run_record : RunRecord) (e : Raised).

Definition verdict (sensor : RunStatusSensorDefinition) (context : SensorEvaluationContext)
    (r : EventLogRecord) : Verdict :=
  match get_run_records (ctx_instance context) [entry_run_id (event_log_entry r)] with
  | [rr] =>
      match job_match sensor context (dagster_run rr) with
      | Ok true => Matched rr
      | Ok false => NoMatch rr
      | Raise e => Broken rr e
      end
  | _ => Unresolved
  end.

(** The effects of a pass that skips its event. *)
Definition skip_effects (r : EventLogRecord) (ts : DateTime) : list Effect :=
  [Inspect r; UpdateCursor (cursor_json (storage_id r) ts)].

Definition is_skipped (sensor : RunStatusSensorDefinition)
    (context : SensorEvaluationContext) (r : EventLogRecord) : Prop :=
  match verdict sensor context r with
  | Unresolved | NoMatch _ => True
  | _ => False
  end.

(** The cursors persisted along a sequence of ticks: the one the first
    tick starts from, and the one persisted after each tick. *)
Fixpoint persisted_cursors (keep_on_raise : bool) (sensor : RunStatusSensorDefinition)
    (cursor : option string) (envs : list TickEnv) : list (option string) :=
  match envs with
  | [] => [cursor]
  | env :: envs' =>
      cursor :: persisted_cursors keep_on_raise sensor
                  (persisted_after keep_on_raise cursor (tick sensor cursor env)) envs'
  end.

(** What the user function handed back for the loop to yield, when it
    returned something. *)
Definition user_outputs (ret : UserResult) : option (list SensorOutput) :=
  match ret with
  | UReturn (RetOutput o) => Some [o]
  | UReturn (RetIterable items None) => Some items
  | _ => None
  end.

(** The reading of the specification: at the first event of the batch
    that matches, one decision is emitted (a reaction, or the outputs of
    the user function), and no event after it is inspected. *)
Definition stops_at_first_match (sensor : RunStatusSensorDefinition)
    (context : SensorEvaluationContext) (batch : list EventLogRecord) : Prop :=
  forall pre r post rr,
    batch = (pre ++ r :: post)%list ->
    Forall (is_skipped sensor context) pre ->
    verdict sensor context r = Matched rr ->
    let t := scan sensor context batch in
    inspected (effects t) = (pre ++ [r])%list
    /\ ((exists err,
            outputs (effects t)
            = [PipelineRunReaction (dagster_run rr) (run_status sensor) err])
        \/ user_outputs (snd (invoke sensor context (dagster_run rr) r))
           = Some (outputs (effects t))).

(** The reading of the specification: whenever the number of arguments
    is the number of parameters that [__call__] looks for, the user
    function is called exactly once. *)
Definition called_once_when_arity_matches (self : RunStatusSensorDefinition)
    (args : list PyValue) (kwargs : list (string * PyValue)) : Prop :=
  let n := (List.length args + List.length kwargs)%nat in
  match fn_params (_run_status_sensor_fn self) with
  | [] => n = 0%nat
  | _ :: _ => n = 1%nat
  end ->
  exists arg, calls (__call__ self args kwargs) = [arg].

(** *** Failure sensors *)

(** [DagsterRunStatus.FAILURE], carried by the name of the member. *)
Definition FAILURE : DagsterRunStatus := "FAILURE".

(** [RunFailureSensorContext]: the subclass of [RunStatusSensorContext],
    built from the same five arguments. *)
Record RunFailureSensorContext := mkRunFailureSensorContext {
  rf_sensor_name : string;
  rf_dagster_run : DagsterRun;
  rf_dagster_event : DagsterEvent;
  rf_instance : DagsterInstance;
  rf_context : option SensorEvaluationContext
}.

(** [RunStatusSensorContext.for_run_failure] *)
Definition for_run_failure (c : RunStatusSensorContext) : RunFailureSensorContext :=
  mkRunFailureSensorContext (rs_sensor_name c) (rs_dagster_run c) (rs_dagster_event c)
    (rs_instance c) (rs_context c).

(** [RunFailureSensorContext.failure_event] *)
Definition failure_event (c : RunFailureSensorContext) : DagsterEvent :=
  rf_dagster_event c.

(** The function that [run_failure_sensor] decorates: its [__name__] and
    what a call with a failure context does. *)
Record FailureFn := mkFailureFn {
  failure_fn_name : string;
  failure_fn_body : RunFailureSensorContext -> UserResult
}.

(** The function [_run_failure_sensor(context)] that
    [run_failure_sensor] hands to [run_status_sensor]: it declares the one
    parameter [context], and a call without argument is a [TypeError] of
    Python. *)
Definition _run_failure_sensor (fn : FailureFn) : UserFn :=
  mkUserFn "_run_failure_sensor" ["context"]
    (fun arg =>
       match arg with
       | Some context => failure_fn_body fn (for_run_failure context)
       | None =>
           URaise (mkExn "TypeError"
                     "_run_failure_sensor() missing 1 required positional argument: 'context'"
                     [])
       end).

(** The first argument of [run_failure_sensor]: nothing, a name, or the
    function itself when the decorator is used bare. *)
Inductive NameArgument :=
| NameIsNone
| NameIsStr (s : string)
| NameIsCallable (fn : FailureFn).

(** [inner] of [run_failure_sensor] *)
Definition run_failure_sensor_inner (name : NameArgument)
    (monitored_jobs job_selection : option (list MonitoredJob))
    (monitor_all_repositories : bool) (fn : FailureFn)
  : Result RunStatusSensorDefinition :=
  let sensor_name :=
    match name with
    | NameIsStr s => s
    | _ => failure_fn_name fn
    end in
  let jobs := if opt_truthy monitored_jobs then monitored_jobs else job_selection in
  run_status_sensor FAILURE (Some sensor_name) jobs None monitor_all_repositories
    (_run_failure_sensor fn).



(** *** More vocabulary *)

(** The jobs that [run_status_sensor] passes on: [monitored_jobs] when it
    holds something, [job_selection] otherwise. *)
Definition effective_jobs (monitored_jobs job_selection : option (list MonitoredJob))
  : list MonitoredJob :=
  match (if opt_truthy monitored_jobs then monitored_jobs else job_selection) with
  | Some l => l
  | None => []
  end.

(** The coercion of [__init__]: a code location stands for its repository
    ["__repository__"]. *)
Definition coerced (job : MonitoredJob) : MonitoredJob :=
  match job with
  | CodeLocSel s => RepoSel (to_repository_selector s)
  | _ => job
  end.

(** The events that a tick has dealt with: those it inspected, but for the
    one at which it raised. *)
Definition processed (t : TickResult) : list EventLogRecord :=
  match raised t with
  | None => inspected (effects t)
  | Some _ => removelast (inspected (effects t))
  end.

(** The last element of a list, if it has one. *)
Definition last_of {A} (l : list A) : option A := last (map Some l) None.

(** Which branch a tick takes. *)
Inductive TickCase (sensor : RunStatusSensorDefinition) (cursor : option string)
    (env : TickEnv) : Prop :=
| Initiates :
    stored_record_id cursor = None ->
    tick sensor cursor env
    = initiate sensor (env_now env)
        (mkSensorEvaluationContext cursor (env_instance env) (env_repository_name env)) ->
    TickCase sensor cursor env
| FailsToParse (c : RunStatusSensorCursor) :
    stored_record_id cursor = Some (record_id c) ->
    tick sensor cursor env = raise (ParserError (update_timestamp c)) ->
    TickCase sensor cursor env
| Scans (c : RunStatusSensorCursor) (after : DateTime) :
    stored_record_id cursor = Some (record_id c) ->
    (let context :=
       mkSensorEvaluationContext cursor (env_instance env) (env_repository_name env) in
     tick sensor cursor env = scan sensor context (fetch sensor context (record_id c) after)) ->
    TickCase sensor cursor env.

End Sensor.

(** ** A small instance

    Times are texts, the table knows the statuses [SUCCESS] and [FAILURE],
    and the event log holds runs of two repositories and a run that was
    executed by hand. *)

Module Demo.

#[export] Instance externals : Externals := {|
  Timestamp := Z;
  DateTime := string;
  utc_datetime_from_timestamp := fun t => "1970-01-01T00:00:" ++ Serdes.string_of_Z t;
  isoformat := fun d => d;
  pendulum_parse := fun s => match s with EmptyString => None | _ => Some s end;
  PIPELINE_RUN_STATUS_TO_EVENT_TYPE := fun st =>
    if String.eqb st "FAILURE" then Some "PIPELINE_FAILURE"
    else if String.eqb st "SUCCESS" then Some "PIPELINE_SUCCESS"
    else None
|}.

Definition origin_in (location repository : string) : option ExternalPipelineOrigin :=
  Some (mkExternalPipelineOrigin
          (mkExternalRepositoryOrigin (mkRepositoryLocationOrigin location) repository)).

Definition run_a : DagsterRun := mkDagsterRun "run_a" "job_a" (origin_in "loc" "repo").
Definition run_b : DagsterRun := mkDagsterRun "run_b" "job_b" (origin_in "loc" "repo").
Definition run_manual : DagsterRun := mkDagsterRun "run_manual" "job_a" None.
Definition run_far : DagsterRun := mkDagsterRun "run_far" "job_z" (origin_in "far" "other").

Definition failure_of (id : Z) (run : string) : EventLogRecord :=
  mkEventLogRecord id
    (mkEventLogEntry run id (Some (mkDagsterEvent "PIPELINE_FAILURE" "failed"))).

Definition success_of (id : Z) (run : string) : EventLogRecord :=
  mkEventLogRecord id
    (mkEventLogEntry run id (Some (mkDagsterEvent "PIPELINE_SUCCESS" "succeeded"))).

Definition runs : list RunRecord :=
  [mkRunRecord run_a "2023-01-01T00:00:01";
   mkRunRecord run_b "2023-01-01T00:00:02";
   mkRunRecord run_manual "2023-01-01T00:00:03";
   mkRunRecord run_far "2023-01-01T00:00:04"].

Definition instance_of (log : list EventLogRecord) : DagsterInstance :=
  mkDagsterInstance log runs.

Definition env_of (log : list EventLogRecord) : TickEnv :=
  mkTickEnv "2023-02-02T00:00:00" (instance_of log) (Some "repo").

Definition boom : Exn := mkExn "ValueError" "boom" ["frame 1"; "frame 2"].

Definition returns_none : UserFn := mkUserFn "on_failure" ["context"] (fun _ => UReturn RetNone).
Definition raises : UserFn := mkUserFn "on_failure" ["context"] (fun _ => URaise boom).
Definition skips : UserFn :=
  mkUserFn "on_failure" ["context"] (fun _ => UReturn (RetOutput (SkipReason "nothing to do"))).
Definition no_params : UserFn := mkUserFn "on_failure" [] (fun _ => UReturn RetNone).

Definition sensor_of (fn : UserFn) (jobs : list MonitoredJob) (all : bool)
  : RunStatusSensorDefinition :=
  mkRunStatusSensorDefinition "on_failure" "FAILURE" "PIPELINE_FAILURE" fn jobs all
    (repository_selectors jobs) (job_selectors jobs)
    (filter (fun x => negb (is_selector x)) jobs).

Definition cursor_at (id : Z) : option string :=
  Some (to_json (mkCursor id "2023-01-01T00:00:00")).

(** Two failures of runs of the current repository, after a success. *)
Definition log_two_failures : list EventLogRecord :=
  [success_of 1 "run_a"; failure_of 2 "run_a"; failure_of 3 "run_b"].

(** A failure of the run executed by hand. *)
Definition log_manual : list EventLogRecord :=
  [failure_of 1 "run_a"; failure_of 2 "run_manual"; failure_of 3 "run_b"].

(** A failure of a run that the run storage does not know. *)
Definition log_unknown_run : list EventLogRecord :=
  [failure_of 4 "run_gone"; failure_of 5 "run_a"].

Definition a_context : RunStatusSensorContext :=
  mkRunStatusSensorContext "on_failure" run_a (mkDagsterEvent "PIPELINE_FAILURE" "failed")
    (instance_of []) None.

Definition context_of (id : Z) (log : list EventLogRecord) : SensorEvaluationContext :=
  mkSensorEvaluationContext (cursor_at id) (instance_of log) (Some "repo").

(** The context that the loop hands to the user function for a failure
    of [run]. *)
Definition passed (context : SensorEvaluationContext) (run : DagsterRun)
  : RunStatusSensorContext :=
  mkRunStatusSensorContext "on_failure" run (mkDagsterEvent "PIPELINE_FAILURE" "failed")
    (ctx_instance context) (Some context).

(** A hundred failures of [run_a], with the ids 1 to 100. *)
Definition log_hundred : list EventLogRecord :=
  map (fun i => failure_of (Z.of_nat i) "run_a") (seq 1 100).

Definition record_a : RunRecord := mkRunRecord run_a "2023-01-01T00:00:01".
Definition record_manual : RunRecord := mkRunRecord run_manual "2023-01-01T00:00:03".

(** Jobs of three kinds: a job of the current repository, a code location
    and a job of another repository. *)
Definition mixed_jobs : list MonitoredJob :=
  [JobDef "job_a";
   CodeLocSel (mkCodeLocationSelector "far");
   JobSel (mkJobSelector "far" "other" "job_z")].


(** A function for a failure sensor: it gives the message of the failure
    event as the reason to skip. *)
Definition notify : FailureFn :=
  mkFailureFn "notify" (fun c => UReturn (RetOutput (SkipReason (event_message (failure_event c))))).

Definition failure_sensor_of (fn : FailureFn) : RunStatusSensorDefinition :=
  mkRunStatusSensorDefinition (failure_fn_name fn) "FAILURE" "PIPELINE_FAILURE"
    (_run_failure_sensor fn) [] false [] [] [].

End Demo.


(** * Properties *)

(** ** The codec *)

Module SerdesFacts.
Import Serdes.

Lemma append_assoc (a b c : string) : ((a ++ b) ++ c = a ++ (b ++ c))%string.
Proof. induction a as [|x a IH]; simpl; [reflexivity | now rewrite IH]. Qed.

Lemma append_nil_r (a : string) : (a ++ EmptyString = a)%string.
Proof. induction a as [|x a IH]; simpl; [reflexivity | now rewrite IH]. Qed.

Lemma push_push (a b : list token) (r : option (list token)) :
  push a (push b r) = push (a ++ b)%list r.
Proof.
  destruct a as [|x a], b as [|y b], r as [l|]; simpl; try reflexivity.
  - now rewrite List.app_nil_r.
  - now rewrite <- List.app_assoc.
Qed.

Lemma push_some (a l : list token) : push a (Some l) = Some (a ++ l)%list.
Proof. destruct a; reflexivity. Qed.

(** Inside a string literal the lexer undoes [escape]. *)
Lemma lex_string_body (s : string) : forall acc rest,
  lex (LxString acc) (escape s ++ String quote_char rest)
  = push [TString (acc ++ s)] (lex LxIdle rest).
Proof.
  induction s as [|c s IH]; intros acc rest.
  - simpl. now rewrite append_nil_r.
  - simpl escape.
    destruct (Ascii.eqb_spec c quote_char) as [->|Hq].
    + simpl. rewrite IH. unfold snoc. now rewrite append_assoc.
    + destruct (Ascii.eqb_spec c backslash_char) as [->|Hb].
      * simpl. rewrite IH. unfold snoc. now rewrite append_assoc.
      * cbn [append lex lex_step].
        apply Ascii.eqb_neq in Hq, Hb. rewrite Hq, Hb.
        cbn [push]. rewrite IH. unfold snoc. now rewrite append_assoc.
Qed.

Lemma lex_quoted (s rest : string) :
  lex LxIdle (quoted s ++ rest) = push [TString s] (lex LxIdle rest).
Proof.
  unfold quoted. cbn [append]. rewrite append_assoc.
  cbn [append lex]. change (lex_step LxIdle quote_char) with (Some (@nil token, LxString EmptyString)).
  cbn [push]. now rewrite lex_string_body.
Qed.

(** Digits are gathered most recent first. *)
Lemma lex_digits (u : uint) : forall neg ds rest,
  lex (LxNumber neg ds) (NilEmpty.string_of_uint u ++ rest)
  = lex (LxNumber neg (revapp u ds)) rest.
Proof.
  induction u; intros neg ds rest; simpl; try reflexivity; apply IHu.
Qed.

Lemma lex_unsigned (u : uint) (rest : string) :
  u <> Nil ->
  lex LxIdle (NilEmpty.string_of_uint u ++ rest) = lex (LxNumber false (rev u)) rest.
Proof.
  intros Hu. destruct u; try congruence; simpl; apply lex_digits.
Qed.

Lemma lex_negative (u : uint) (rest : string) :
  u <> Nil ->
  lex LxMinus (NilEmpty.string_of_uint u ++ rest) = lex (LxNumber true (rev u)) rest.
Proof.
  intros Hu. destruct u; try congruence; simpl; apply lex_digits.
Qed.

Lemma lex_number_stop neg ds c rest toks st' :
  digit_of_ascii c = None ->
  idle_step c = Some (toks, st') ->
  lex (LxNumber neg ds) (String c rest) = push (number_token neg ds :: toks) (lex st' rest).
Proof.
  intros Hd Hi. cbn [lex lex_step]. now rewrite Hd, Hi.
Qed.

Lemma lex_Z (z : Z) c rest toks st' :
  digit_of_ascii c = None ->
  idle_step c = Some (toks, st') ->
  lex LxIdle (string_of_Z z ++ String c rest) = push (TInt z :: toks) (lex st' rest).
Proof.
  intros Hd Hi. unfold string_of_Z.
  pose proof (DecimalZ.of_to z) as Hz.
  destruct z as [|p|p]; cbn [Z.to_int] in *.
  - simpl. rewrite Hd, Hi. reflexivity.
  - rewrite lex_unsigned by apply Unsigned.to_uint_nonnil.
    rewrite lex_number_stop with (toks := toks) (st' := st') by assumption.
    unfold number_token.
    now rewrite DecimalFacts.rev_rev, Hz.
  - cbn [append lex]. change (lex_step LxIdle "-") with (Some (@nil token, LxMinus)).
    cbn [push]. rewrite lex_negative by apply Unsigned.to_uint_nonnil.
    rewrite lex_number_stop with (toks := toks) (st' := st') by assumption.
    unfold number_token.
    now rewrite DecimalFacts.rev_rev, Hz.
Qed.

Lemma lex_value (v : jvalue) c rest toks st' :
  digit_of_ascii c = None ->
  idle_step c = Some (toks, st') ->
  lex LxIdle (print_value v ++ String c rest)
  = push (token_of_value v :: toks) (lex st' rest).
Proof.
  intros Hd Hi. destruct v as [z|s]; cbn [print_value token_of_value].
  - now apply lex_Z.
  - rewrite lex_quoted. cbn [lex lex_step]. rewrite Hi. now rewrite push_push.
Qed.

Lemma lex_member (kv : string * jvalue) c rest toks st' :
  digit_of_ascii c = None ->
  idle_step c = Some (toks, st') ->
  lex LxIdle (print_member kv ++ String c rest)
  = push (member_tokens kv ++ toks)%list (lex st' rest).
Proof.
  intros Hd Hi. unfold print_member. rewrite append_assoc, lex_quoted.
  cbn [append]. cbn [lex]. change (lex_step LxIdle ":") with (Some ([TColon], LxIdle)).
  cbn [lex]. change (lex_step LxIdle " ") with (Some (@nil token, LxIdle)).
  cbn [push]. rewrite lex_value with (toks := toks) (st' := st') by assumption.
  destruct (lex st' rest); reflexivity.
Qed.

Lemma lex_members (kvs : list (string * jvalue)) :
  kvs <> [] ->
  lex LxIdle (print_members kvs ++ "}") = Some (members_tokens kvs ++ [TRBrace])%list.
Proof.
  induction kvs as [|kv kvs IH]; intros Hne; [congruence|].
  destruct kvs as [|kv' kvs].
  - cbn [print_members members_tokens].
    rewrite (@lex_member kv "}"%char EmptyString [TRBrace] LxIdle eq_refl eq_refl).
    cbn [lex lex_end]. now rewrite push_some, List.app_nil_r.
  - change (print_members (kv :: kv' :: kvs))
      with (print_member kv ++ ", " ++ print_members (kv' :: kvs))%string.
    change (members_tokens (kv :: kv' :: kvs))
      with (member_tokens kv ++ TComma :: members_tokens (kv' :: kvs))%list.
    rewrite !append_assoc. cbn [append].
    rewrite (@lex_member kv ","%char _ [TComma] LxIdle eq_refl eq_refl).
    cbn [lex]. change (lex_step LxIdle " ") with (Some (@nil token, LxIdle)).
    cbn [push]. rewrite IH by congruence. rewrite push_some.
    now rewrite <- List.app_assoc.
Qed.

Lemma value_of_token_of_value (v : jvalue) : value_of_token (token_of_value v) = Some v.
Proof. destruct v; reflexivity. Qed.

Lemma parse_members_tokens (kvs : list (string * jvalue)) :
  kvs <> [] ->
  parse_members (members_tokens kvs ++ [TRBrace]) = Some kvs.
Proof.
  induction kvs as [|[k v] kvs IH]; intros Hne; [congruence|].
  destruct kvs as [|kv' kvs].
  - cbn. now rewrite value_of_token_of_value.
  - change (members_tokens ((k, v) :: kv' :: kvs))
      with (member_tokens (k, v) ++ TComma :: members_tokens (kv' :: kvs))%list.
    cbn [member_tokens fst snd List.app parse_members].
    rewrite value_of_token_of_value, IH by congruence. reflexivity.
Qed.

(** Reading back what [dumps] printed gives the dictionary. *)
Lemma loads_dumps (kvs : list (string * jvalue)) : loads (dumps kvs) = Some kvs.
Proof.
  unfold loads, dumps. destruct kvs as [|kv kvs]; [reflexivity|].
  cbn [append lex]. change (lex_step LxIdle "{") with (Some ([TLBrace], LxIdle)).
  cbv beta iota. rewrite lex_members by congruence. rewrite push_some.
  cbn [List.app parse_object].
  pose proof (@parse_members_tokens (kv :: kvs)) as Hp.
  destruct (members_tokens (kv :: kvs) ++ [TRBrace])%list as [|t ts] eqn:E.
  - now destruct (members_tokens (kv :: kvs)).
  - destruct t; try (apply Hp; congruence).
    destruct kv as [k v]. destruct kvs; discriminate E.
Qed.

Lemma unpack_pack (tag : string) (c : RunStatusSensorCursor) :
  resolve_class tag <> None ->
  unpack (pack_as tag c) = Ok c.
Proof.
  intros Hr. unfold unpack, pack_as. cbn [lookup String.eqb Ascii.eqb Bool.eqb].
  destruct (resolve_class tag); [|congruence]. now destruct c.
Qed.

(** A cursor serialized under a tag that names the cursor class is read
    back as it was. *)
Lemma deserialize_serialize_as (tag : string) (c : RunStatusSensorCursor) :
  resolve_class tag <> None ->
  deserialize_value (serialize_as tag c) = Ok c.
Proof.
  intros Hr. unfold deserialize_value, serialize_as.
  rewrite loads_dumps. now apply unpack_pack.
Qed.

Lemma from_json_to_json (c : RunStatusSensorCursor) : from_json (to_json c) = Ok c.
Proof. apply deserialize_serialize_as. discriminate. Qed.

Lemma is_valid_to_json (c : RunStatusSensorCursor) : is_valid (to_json c) = true.
Proof. unfold is_valid. change Serdes.deserialize_value with from_json.
       now rewrite from_json_to_json. Qed.

End SerdesFacts.

(** ** The event store *)

Section StoreFacts.

Context `{Externals}.

Lemma insert_by_id_In (r x : EventLogRecord) (l : list EventLogRecord) :
  In x (insert_by_id r l) <-> x = r \/ In x l.
Proof.
  induction l as [|y l IH]; simpl.
  - intuition.
  - destruct (storage_id r <=? storage_id y); simpl; rewrite ?IH; intuition.
Qed.

Lemma insert_by_id_sorted (r : EventLogRecord) (l : list EventLogRecord) :
  StronglySorted id_le l -> StronglySorted id_le (insert_by_id r l).
Proof.
  induction 1 as [|y l Hs IH Hy]; simpl.
  - repeat constructor.
  - destruct (Z.leb_spec (storage_id r) (storage_id y)) as [Hle|Hlt].
    + constructor; [now constructor|].
      constructor; [exact Hle|].
      eapply Forall_impl; [|exact Hy]. unfold id_le. intros; lia.
    + constructor; [exact IH|].
      apply Forall_forall. intros x Hx. apply insert_by_id_In in Hx.
      destruct Hx as [->|Hx]; [unfold id_le; lia|].
      rewrite Forall_forall in Hy. now apply Hy.
Qed.

Lemma sort_by_id_In (x : EventLogRecord) (l : list EventLogRecord) :
  In x (sort_by_id l) <-> In x l.
Proof.
  induction l as [|y l IH]; simpl; [tauto|].
  rewrite insert_by_id_In, IH. intuition.
Qed.

Lemma sort_by_id_sorted (l : list EventLogRecord) : StronglySorted id_le (sort_by_id l).
Proof.
  induction l as [|y l IH]; simpl; [constructor | now apply insert_by_id_sorted].
Qed.

Lemma firstn_incl {A} (n : nat) (l : list A) (x : A) : In x (firstn n l) -> In x l.
Proof.
  revert l. induction n as [|n IH]; intros [|y l]; simpl; try tauto.
  intros [->|Hx]; [now left | right; now apply IH].
Qed.

Lemma firstn_sorted {A} (R : A -> A -> Prop) (n : nat) (l : list A) :
  StronglySorted R l -> StronglySorted R (firstn n l).
Proof.
  intros Hs. revert n. induction Hs as [|y l Hs IH Hy]; intros [|n]; simpl; try constructor.
  - apply IH.
  - apply Forall_forall. intros x Hx. apply firstn_incl in Hx.
    rewrite Forall_forall in Hy. now apply Hy.
Qed.

(** The last of a sorted list is its greatest. *)
Lemma sorted_rev_head (l : list EventLogRecord) :
  StronglySorted id_le l ->
  forall r t, List.rev l = r :: t -> In r l /\ Forall (fun x => id_le x r) l.
Proof.
  induction 1 as [|a l Hs IH Ha]; intros r t Hrev; [discriminate|].
  simpl in Hrev. destruct (List.rev l) as [|r' t'] eqn:E.
  - assert (l = []) as -> by (rewrite <- (rev_involutive l), E; reflexivity).
    injection Hrev as <- <-. split; [now left|].
    repeat constructor. unfold id_le. lia.
  - injection Hrev as <- <-. destruct (IH r' t' eq_refl) as [Hin Hall].
    split; [now right|]. constructor; [|exact Hall].
    rewrite Forall_forall in Ha. now apply Ha.
Qed.

(** The events that a query selects are those of the log that the filter
    accepts. *)
Lemma get_event_records_In instance flt ascending limit (r : EventLogRecord) :
  In r (get_event_records instance flt ascending limit) ->
  In r (event_log instance) /\ record_selected flt r = true.
Proof.
  unfold get_event_records, take_limit. intros Hin.
  assert (In r (sort_by_id (filter (record_selected flt) (event_log instance)))) as Hs.
  { destruct limit as [n|]; [apply firstn_incl in Hin|];
      destruct ascending; auto; now apply in_rev. }
  apply sort_by_id_In, filter_In in Hs. exact Hs.
Qed.

Lemma get_event_records_length instance flt ascending (n : nat) :
  (List.length (get_event_records instance flt ascending (Some n)) <= n)%nat.
Proof. apply firstn_le_length. Qed.

Lemma get_event_records_ascending instance flt limit :
  StronglySorted id_le (get_event_records instance flt true limit).
Proof.
  unfold get_event_records, take_limit.
  destruct limit; [apply firstn_sorted|]; apply sort_by_id_sorted.
Qed.

Lemma most_recent_event_id_latest instance ty :
  is_latest_event_id instance ty
    match get_event_records instance (mkEventRecordsFilter ty None) false (Some 1%nat) with
    | [r] => storage_id r
    | _ => -1
    end.
Proof.
  unfold get_event_records, take_limit.
  set (flt := mkEventRecordsFilter ty None).
  set (sel := sort_by_id (filter (record_selected flt) (event_log instance))).
  assert (Hsel : forall x, In x sel <-> In x (event_log instance) /\ has_event_type ty x = true).
  { intros x. unfold sel. rewrite sort_by_id_In, filter_In.
    unfold record_selected, flt. simpl. now rewrite andb_true_r. }
  pose proof (sorted_rev_head (sort_by_id_sorted (filter (record_selected flt) (event_log instance))))
    as Hmax. fold sel in Hmax.
  destruct (List.rev sel) as [|r t] eqn:E.
  - right. split; [reflexivity|]. intros x Hx.
    destruct (has_event_type ty x) eqn:Hty; [|reflexivity].
    assert (In x sel) as Hin by (apply Hsel; auto).
    apply in_rev in Hin. rewrite E in Hin. destruct Hin.
  - left. destruct (Hmax r t eq_refl) as [Hin Hall].
    exists r. apply Hsel in Hin. destruct Hin as [Hlog Hty].
    simpl. repeat split; auto.
    intros x Hx Htx. rewrite Forall_forall in Hall. apply Hall. apply Hsel. auto.
Qed.

End StoreFacts.

(** ** One pass through the loop *)

Create Rewrite HintDb trace.

Section TickFacts.

Context `{Externals}.

Lemma cursor_updates_app (a b : list Effect) :
  cursor_updates (a ++ b) = (cursor_updates a ++ cursor_updates b)%list.
Proof. apply flat_map_app. Qed.

Lemma outputs_app (a b : list Effect) : outputs (a ++ b) = (outputs a ++ outputs b)%list.
Proof. apply flat_map_app. Qed.

Lemma inspected_app (a b : list Effect) :
  inspected (a ++ b) = (inspected a ++ inspected b)%list.
Proof. apply flat_map_app. Qed.

Lemma evaluated_app (a b : list Effect) :
  evaluated (a ++ b) = (evaluated a ++ evaluated b)%list.
Proof. apply flat_map_app. Qed.

Lemma cursor_updates_yields (items : list SensorOutput) : cursor_updates (map Yield items) = [].
Proof. induction items; simpl; auto. Qed.

Lemma inspected_yields (items : list SensorOutput) : inspected (map Yield items) = [].
Proof. induction items; simpl; auto. Qed.

Lemma evaluated_yields (items : list SensorOutput) : evaluated (map Yield items) = [].
Proof. induction items; simpl; auto. Qed.

Lemma outputs_yields (items : list SensorOutput) : outputs (map Yield items) = items.
Proof. induction items; simpl; congruence. Qed.

Hint Rewrite cursor_updates_app outputs_app inspected_app evaluated_app
     cursor_updates_yields inspected_yields evaluated_yields outputs_yields
     List.app_nil_r : trace.

Lemma cursor_json_writes (id : Z) (ts : DateTime) : writes_id id (cursor_json id ts).
Proof. now exists (isoformat ts). Qed.

(** The outcomes of [invoke]: the user function is called for the event at
    most once, and nothing else happens. *)
Lemma invoke_spec sensor context run (r : EventLogRecord) called ret :
  invoke sensor context run r = (called, ret) ->
  inspected called = [] /\ cursor_updates called = [] /\ outputs called = []
  /\ (evaluated called = [] \/ evaluated called = [r]).
Proof.
  unfold invoke. destruct (dagster_event (event_log_entry r));
    intros [= <- <-]; simpl; auto.
Qed.

(** What the body of the loop does for an event that matched: whatever
    the user function does, the cursor is moved to the event, and the pass
    ends without an exception. *)
Lemma react_spec sensor context run ts (r : EventLogRecord) es k :
  react sensor context run ts r = (es, k) ->
  inspected es = []
  /\ Forall (writes_id (storage_id r)) (cursor_updates es)
  /\ cursor_updates es <> []
  /\ (evaluated es = [] \/ evaluated es = [r])
  /\ (k = Continue \/ k = Return).
Proof.
  unfold react. destruct (invoke sensor context run r) as [called ret] eqn:Hinv.
  destruct (invoke_spec _ _ _ _ Hinv) as (Hi & Hu & _ & He).
  pose proof (cursor_json_writes (storage_id r) ts) as Hw.
  destruct ret as [e|[|o|items [e|]]]; intros [= <- <-];
    autorewrite with trace; simpl; rewrite ?Hi, ?Hu; simpl;
    autorewrite with trace; simpl;
    (repeat split; [repeat constructor; assumption | discriminate | | auto]);
    destruct He as [-> | ->]; auto.
Qed.

(** What one pass through the loop does: it inspects its event only;
    every update of the cursor moves it to this event; a pass that does
    not raise updates the cursor; a pass that raises has neither updated
    it nor called the user function. *)
Lemma visit_spec sensor context (r : EventLogRecord) es k :
  visit sensor context r = (es, k) ->
  inspected es = [r]
  /\ Forall (writes_id (storage_id r)) (cursor_updates es)
  /\ (evaluated es = [] \/ evaluated es = [r])
  /\ match k with
     | Raising _ => cursor_updates es = [] /\ evaluated es = []
     | _ => cursor_updates es <> []
     end.
Proof.
  unfold visit.
  destruct (get_run_records (ctx_instance context) [entry_run_id (event_log_entry r)])
    as [|rr [|rr' rrs]].
  - intros [= <- <-]. simpl.
    repeat split; auto; [repeat constructor; apply cursor_json_writes | discriminate].
  - destruct (job_match sensor context (dagster_run rr)) as [[|]|e].
    + destruct (react sensor context (dagster_run rr) (run_update_timestamp rr) r)
        as [es' k'] eqn:Hreact.
      destruct (react_spec _ _ _ _ _ Hreact) as (Hi & Hu & Hne & He & Hk).
      intros [= <- <-]. simpl. rewrite Hi.
      repeat split; auto. destruct Hk as [-> | ->]; exact Hne.
    + intros [= <- <-]. simpl.
      repeat split; auto; [repeat constructor; apply cursor_json_writes | discriminate].
    + intros [= <- <-]. simpl. repeat split; auto.
  - intros [= <- <-]. simpl.
    repeat split; auto; [repeat constructor; apply cursor_json_writes | discriminate].
Qed.


(** ** Cursors in order *)

Lemma cursor_le_refl (a : option string) : cursor_le a a.
Proof. unfold cursor_le. destruct (stored_record_id a); [lia | exact I]. Qed.

Lemma cursor_le_trans (a b c : option string) :
  cursor_le a b -> cursor_le b c -> cursor_le a c.
Proof.
  unfold cursor_le.
  destruct (stored_record_id a), (stored_record_id b), (stored_record_id c);
    try tauto; lia.
Qed.

Lemma stored_record_id_writes (id : Z) (s : string) :
  writes_id id s -> stored_record_id (Some s) = Some id.
Proof.
  intros [ts ->]. unfold stored_record_id.
  now rewrite SerdesFacts.from_json_to_json.
Qed.

Lemma climbs_from_weaken (b b' : Z) (updates : list string) :
  b <= b' -> climbs_from b' updates -> climbs_from b updates.
Proof.
  destruct updates as [|s rest]; simpl; [auto|].
  intros Hb (id & Hw & Hle & Hrest). exists id. repeat split; auto; lia.
Qed.

Lemma climbs_from_app (b id : Z) (us rest : list string) :
  b <= id -> Forall (writes_id id) us -> climbs_from id rest ->
  climbs_from b (us ++ rest).
Proof.
  intros Hb Hus Hrest. revert b Hb.
  induction Hus as [|s us Hs Hus IH]; intros b Hb; simpl.
  - now apply climbs_from_weaken with id.
  - exists id. repeat split; auto. apply IH. lia.
Qed.

Lemma climbs_from_sorted (b : Z) (updates : list string) (cursor : option string) :
  climbs_from b updates ->
  match stored_record_id cursor with Some b0 => b0 <= b | None => True end ->
  StronglySorted cursor_le (cursor :: map Some updates).
Proof.
  intros Hc Hb. apply Sorted_StronglySorted.
  { intros x y z. apply cursor_le_trans. }
  revert b cursor Hc Hb. induction updates as [|s rest IH]; intros b cursor Hc Hb; simpl.
  - repeat constructor.
  - destruct Hc as (id & Hw & Hle & Hrest).
    pose proof (stored_record_id_writes Hw) as Hid.
    constructor.
    + apply IH with id; [exact Hrest | rewrite Hid; lia].
    + constructor. unfold cursor_le. rewrite Hid.
      destruct (stored_record_id cursor); [lia | exact I].
Qed.

Lemma last_cons {A} (y d : A) (l : list A) : last (y :: l) d = last l y.
Proof.
  revert y d. induction l as [|z l IH]; intros y d; [reflexivity|].
  change (last (y :: z :: l) d) with (last (z :: l) d). now rewrite !IH.
Qed.

Lemma cursor_after_last (cursor : option string) (es : list Effect) :
  cursor_after cursor es = last (map Some (cursor_updates es)) cursor.
Proof.
  unfold cursor_after. generalize (cursor_updates es) as us. intros us. revert cursor.
  induction us as [|s us IH]; intros cursor; [reflexivity|].
  simpl fold_left. rewrite IH. simpl map. now rewrite last_cons.
Qed.

Lemma sorted_le_last (c : option string) (l : list (option string)) :
  StronglySorted cursor_le (c :: l) ->
  forall x, In x (c :: l) -> cursor_le x (last l c).
Proof.
  revert c. induction l as [|y l IH]; intros c Hs x Hx.
  - destruct Hx as [<-|[]]. apply cursor_le_refl.
  - apply StronglySorted_inv in Hs. destruct Hs as [Hs Hall].
    rewrite last_cons.
    destruct Hx as [<-|Hx].
    + apply cursor_le_trans with y.
      * rewrite Forall_forall in Hall. apply Hall. now left.
      * apply IH; [exact Hs | now left].
    + now apply IH.
Qed.

(** ** The loop *)

Lemma scan_climbs sensor context (batch : list EventLogRecord) : forall b,
  StronglySorted id_le batch ->
  Forall (fun r => b <= storage_id r) batch ->
  climbs_from b (cursor_updates (effects (scan sensor context batch))).
Proof.
  induction batch as [|r rest IH]; intros b Hs Hb; [exact I|].
  apply StronglySorted_inv in Hs. destruct Hs as [Hs Hr].
  inversion Hb as [|? ? Hbr Hbrest]; subst.
  simpl scan. destruct (visit sensor context r) as [es k] eqn:Hv.
  destruct (visit_spec _ _ _ Hv) as (_ & Hw & _ & _).
  destruct k; simpl; rewrite cursor_updates_app.
  - apply climbs_from_app with (storage_id r); auto.
  - apply climbs_from_app with (storage_id r); simpl; auto.
  - apply climbs_from_app with (storage_id r); simpl; auto.
Qed.

(** The events inspected are the first ones of the batch. *)
Lemma scan_inspected sensor context (batch : list EventLogRecord) :
  exists n, inspected (effects (scan sensor context batch)) = firstn n batch.
Proof.
  induction batch as [|r rest [n IH]]; [now exists 0%nat|].
  simpl scan. destruct (visit sensor context r) as [es k] eqn:Hv.
  destruct (visit_spec _ _ _ Hv) as (Hi & _).
  destruct k; simpl; rewrite inspected_app, Hi.
  - exists (S n). simpl. now rewrite IH.
  - now exists 1%nat.
  - now exists 1%nat.
Qed.

(** An event is evaluated only if it is in the batch, and the cursor is
    then moved to it. *)
Lemma scan_evaluated sensor context (batch : list EventLogRecord) (r : EventLogRecord) :
  In r (evaluated (effects (scan sensor context batch))) ->
  In r batch
  /\ exists s, In s (cursor_updates (effects (scan sensor context batch)))
               /\ writes_id (storage_id r) s.
Proof.
  induction batch as [|r0 rest IH]; [intros []|].
  simpl scan. destruct (visit sensor context r0) as [es k] eqn:Hv.
  destruct (visit_spec _ _ _ Hv) as (_ & Hw & He & Hk).
  assert (Hhere : In r (evaluated es) ->
                  r = r0 /\ exists s, In s (cursor_updates es) /\ writes_id (storage_id r) s).
  { intros Hin. destruct He as [He|He]; rewrite He in Hin; [destruct Hin|].
    destruct Hin as [<-|[]]. split; [reflexivity|].
    assert (Hne : cursor_updates es <> []).
    { destruct k; auto. destruct Hk as [_ Hk]. congruence. }
    revert Hw Hne. destruct (cursor_updates es) as [|s us]; intros Hw Hne; [congruence|].
    exists s. split; [now left | now inversion Hw]. }
  assert (Hfirst : In r (evaluated es) ->
                   forall tl, In r (r0 :: rest)
                     /\ exists s, In s (cursor_updates (es ++ tl)) /\ writes_id (storage_id r) s).
  { intros Hin tl. destruct (Hhere Hin) as (-> & s & Hs & Hws).
    split; [now left|]. exists s. split; [|exact Hws].
    rewrite cursor_updates_app. apply in_or_app. now left. }
  destruct k; simpl; rewrite evaluated_app; intros Hin; apply in_app_or in Hin;
    destruct Hin as [Hin|Hin]; try (now apply Hfirst); try (now destruct Hin).
  destruct (IH Hin) as (Hrest & s & Hs & Hws).
  split; [now right|]. exists s. split; [|exact Hws].
  rewrite cursor_updates_app. apply in_or_app. now right.
Qed.

(** ** The tick *)

Lemma is_valid_from_json (s : string) :
  is_valid s = true <-> exists c, from_json s = Ok c.
Proof.
  unfold is_valid, from_json. destruct (Serdes.deserialize_value s) as [c|e].
  - split; eauto.
  - split; [destruct e; discriminate | intros [c Hc]; discriminate].
Qed.

Lemma not_valid_no_record_id (s : string) :
  is_valid s = false -> stored_record_id (Some s) = None.
Proof.
  intros Hv. unfold stored_record_id. destruct (from_json s) as [c|e] eqn:E; [|reflexivity].
  assert (is_valid s = true) by (apply is_valid_from_json; eauto). congruence.
Qed.

(** The events that a scanning tick fetches: at most five, of the type
    of the sensor, after the cursor, in the order of their ids. *)
Lemma fetch_spec sensor context (id : Z) (after : DateTime) :
  let batch := fetch sensor context id after in
  (List.length batch <= 5)%nat
  /\ Forall (fun r => In r (event_log (ctx_instance context))
                      /\ has_event_type (event_type sensor) r = true
                      /\ id < storage_id r) batch
  /\ StronglySorted id_le batch.
Proof.
  unfold fetch. repeat split.
  - apply get_event_records_length.
  - apply Forall_forall. intros r Hr. apply get_event_records_In in Hr.
    destruct Hr as [Hlog Hsel]. unfold record_selected in Hsel. simpl in Hsel.
    apply andb_true_iff in Hsel. destruct Hsel as [Hty Hafter].
    repeat split; auto. now apply Z.ltb_lt.
  - apply get_event_records_ascending.
Qed.

Lemma tick_cases sensor cursor env : TickCase sensor cursor env.
Proof.
  destruct cursor as [s|]; [|now apply Initiates].
  destruct (is_valid s) eqn:Hv.
  - pose proof Hv as Hv'. apply is_valid_from_json in Hv'. destruct Hv' as [c Hc].
    assert (stored_record_id (Some s) = Some (record_id c)) as Hid
        by (unfold stored_record_id; now rewrite Hc).
    destruct (pendulum_parse (update_timestamp c)) as [after|] eqn:Hp.
    + apply Scans with c after; [exact Hid|].
      unfold tick, _wrapped_fn. cbn [ctx_cursor]. rewrite Hv. cbn [negb].
      now rewrite Hc, Hp.
    + apply FailsToParse with c; [exact Hid|].
      unfold tick, _wrapped_fn. cbn [ctx_cursor]. rewrite Hv. cbn [negb].
      now rewrite Hc, Hp.
  - apply Initiates; [now apply not_valid_no_record_id|].
    unfold tick, _wrapped_fn. cbn [ctx_cursor]. now rewrite Hv.
Qed.

(** ** What the loop decides for an event *)

Lemma visit_by_verdict sensor context (r : EventLogRecord) :
  visit sensor context r
  = match verdict sensor context r with
    | Unresolved =>
        (skip_effects r (utc_datetime_from_timestamp (timestamp (event_log_entry r))),
         Continue)
    | NoMatch rr => (skip_effects r (run_update_timestamp rr), Continue)
    | Matched rr =>
        let (es, k) := react sensor context (dagster_run rr) (run_update_timestamp rr) r in
        (Inspect r :: es, k)
    | Broken _ e => ([Inspect r], Raising e)
    end.
Proof.
  unfold visit, verdict.
  destruct (get_run_records (ctx_instance context) [entry_run_id (event_log_entry r)])
    as [|rr [|rr' rrs]]; try reflexivity.
  destruct (job_match sensor context (dagster_run rr)) as [[|]|e]; reflexivity.
Qed.

Lemma verdict_unresolved sensor context (r : EventLogRecord) :
  List.length (get_run_records (ctx_instance context) [entry_run_id (event_log_entry r)])
    <> 1%nat ->
  verdict sensor context r = Unresolved.
Proof.
  unfold verdict.
  destruct (get_run_records (ctx_instance context) [entry_run_id (event_log_entry r)])
    as [|rr [|rr' rrs]]; simpl; congruence.
Qed.

Lemma emit_emit (a b : list Effect) (t : TickResult) :
  emit a (emit b t) = emit (a ++ b) t.
Proof. unfold emit. simpl. now rewrite <- List.app_assoc. Qed.

Lemma emit_nil (t : TickResult) : emit [] t = t.
Proof. now destruct t. Qed.

(** Events that are skipped leave the rest of the batch to the loop. *)
Lemma scan_skipped sensor context (pre l : list EventLogRecord) :
  Forall (is_skipped sensor context) pre ->
  scan sensor context (pre ++ l)
  = emit (effects (scan sensor context pre)) (scan sensor context l)
  /\ outputs (effects (scan sensor context pre)) = []
  /\ evaluated (effects (scan sensor context pre)) = []
  /\ inspected (effects (scan sensor context pre)) = pre.
Proof.
  induction 1 as [|r pre Hr Hpre (IH & IHo & IHe & IHi)].
  - simpl. now rewrite emit_nil.
  - simpl List.app. simpl scan. rewrite visit_by_verdict.
    unfold is_skipped in Hr. destruct (verdict sensor context r); try contradiction;
      rewrite IH, emit_emit; simpl; rewrite IHo, IHe, IHi; auto.
Qed.

(** ** Cursor monotonicity *)

Lemma tick_updates_sorted sensor cursor env :
  StronglySorted cursor_le
    (cursor :: map Some (cursor_updates (effects (tick sensor cursor env)))).
Proof.
  destruct (tick_cases sensor cursor env) as [Hid Ht | c Hid Ht | c after Hid Ht];
    rewrite Ht.
  - unfold initiate. cbn [emit effects finished cursor_updates flat_map List.app].
    match goal with
    | |- context [to_json (mkCursor ?m ?ts)] =>
        apply climbs_from_sorted with m; [|now rewrite Hid];
          cbn [climbs_from]; exists m; repeat split; [now exists ts | apply Z.le_refl]
    end.
  - simpl. repeat constructor.
  - destruct (fetch_spec sensor
                (mkSensorEvaluationContext cursor (env_instance env) (env_repository_name env))
                (record_id c) after) as (_ & Hall & Hsorted).
    apply climbs_from_sorted with (record_id c); [|rewrite Hid; lia].
    apply scan_climbs; [exact Hsorted|].
    eapply Forall_impl; [|exact Hall]. simpl. intros r (_ & _ & Hlt). lia.
Qed.

Lemma persisted_after_le keep sensor cursor env :
  cursor_le cursor (persisted_after keep cursor (tick sensor cursor env)).
Proof.
  assert (cursor_le cursor (cursor_after cursor (effects (tick sensor cursor env)))) as Hle.
  { rewrite cursor_after_last. apply sorted_le_last; [apply tick_updates_sorted | now left]. }
  unfold persisted_after. destruct (raised (tick sensor cursor env)); [|exact Hle].
  destruct keep; [exact Hle | apply cursor_le_refl].
Qed.

Lemma persisted_cursors_head keep sensor cursor envs :
  exists tl, persisted_cursors keep sensor cursor envs = cursor :: tl.
Proof. destruct envs; simpl; eauto. Qed.

Lemma persisted_cursors_sorted keep sensor cursor envs :
  StronglySorted cursor_le (persisted_cursors keep sensor cursor envs).
Proof.
  apply Sorted_StronglySorted.
  { intros x y z. apply cursor_le_trans. }
  revert cursor. induction envs as [|env envs IH]; intros cursor; simpl.
  - repeat constructor.
  - constructor; [apply IH|].
    destruct (persisted_cursors_head keep sensor
                (persisted_after keep cursor (tick sensor cursor env)) envs) as [tl ->].
    constructor. apply persisted_after_le.
Qed.

Lemma run_ticks_start_le keep sensor envs : forall cursor,
  Forall (fun ct => cursor_le cursor (fst ct)) (run_ticks keep sensor cursor envs).
Proof.
  induction envs as [|env envs IH]; intros cursor; simpl; constructor.
  - apply cursor_le_refl.
  - eapply Forall_impl; [|apply IH]. intros ct Hct.
    eapply cursor_le_trans; [apply persisted_after_le | exact Hct].
Qed.

(** An event is evaluated only in a tick that starts from a cursor
    behind it. *)
Lemma tick_evaluated_after sensor cursor env (r : EventLogRecord) :
  In r (evaluated (effects (tick sensor cursor env))) ->
  exists b, stored_record_id cursor = Some b /\ b < storage_id r.
Proof.
  destruct (tick_cases sensor cursor env) as [Hid Ht | c Hid Ht | c after Hid Ht];
    rewrite Ht.
  - intros [].
  - intros [].
  - intros Hin. apply scan_evaluated in Hin. destruct Hin as [Hin _].
    destruct (fetch_spec sensor
                (mkSensorEvaluationContext cursor (env_instance env) (env_repository_name env))
                (record_id c) after) as (_ & Hall & _).
    rewrite Forall_forall in Hall. destruct (Hall r Hin) as (_ & _ & Hlt).
    exists (record_id c). auto.
Qed.

(** The cursor that a tick leaves is not behind an event it evaluated. *)
Lemma tick_evaluated_covered sensor cursor env (r : EventLogRecord) :
  In r (evaluated (effects (tick sensor cursor env))) ->
  exists b, stored_record_id (cursor_after cursor (effects (tick sensor cursor env))) = Some b
            /\ storage_id r <= b.
Proof.
  intros Hin.
  assert (exists s, In s (cursor_updates (effects (tick sensor cursor env)))
                    /\ writes_id (storage_id r) s) as (s & Hs & Hw).
  { revert Hin.
    destruct (tick_cases sensor cursor env) as [Hid Ht | c Hid Ht | c after Hid Ht];
      rewrite Ht; try (intros []).
    intros Hin. now apply scan_evaluated in Hin. }
  pose proof (@sorted_le_last cursor _ (tick_updates_sorted sensor cursor env) (Some s)) as Hle.
  rewrite <- cursor_after_last in Hle.
  unfold cursor_le in Hle. rewrite (stored_record_id_writes Hw) in Hle.
  destruct (stored_record_id (cursor_after cursor (effects (tick sensor cursor env))))
    as [b|].
  - exists b. split; [reflexivity|]. apply Hle. right. now apply in_map.
  - exfalso. apply Hle. right. now apply in_map.
Qed.

(** C4. Across every sequence of ticks of a sensor the record id of the
    persisted cursor never goes down: within a tick every update of the
    cursor writes a record id that is not below the one written before
    it, starting from the cursor the tick found; the cursors persisted
    from tick to tick are in order; and once a tick has ended without an
    exception, no later tick evaluates an event that it evaluated (the
    events evaluated later have greater ids). *)
Theorem cursor_monotonicity (keep_on_raise : bool) (sensor : RunStatusSensorDefinition)
    (cursor : option string) (env : TickEnv) (envs : list TickEnv) :
  let t := tick sensor cursor env in
  StronglySorted cursor_le (cursor :: map Some (cursor_updates (effects t)))
  /\ StronglySorted cursor_le (persisted_cursors keep_on_raise sensor cursor (env :: envs))
  /\ (raised t = None ->
      forall r1, In r1 (evaluated (effects t)) ->
      Forall (fun ct => forall r2, In r2 (evaluated (effects (snd ct))) ->
                                   storage_id r1 < storage_id r2)
             (run_ticks keep_on_raise sensor
                (persisted_after keep_on_raise cursor t) envs)).
Proof.
  intros t. split; [apply tick_updates_sorted|].
  split; [apply persisted_cursors_sorted|].
  intros Hclean r1 Hr1.
  destruct (tick_evaluated_covered _ _ _ _ Hr1) as (b1 & Hb1 & Hle1).
  assert (persisted_after keep_on_raise cursor t = cursor_after cursor (effects t)) as Hp
      by (unfold persisted_after; now rewrite Hclean).
  rewrite Hp.
  assert (Hticks : forall ct,
             In ct (run_ticks keep_on_raise sensor (cursor_after cursor (effects t)) envs) ->
             exists env', snd ct = tick sensor (fst ct) env').
  { generalize (cursor_after cursor (effects t)) as c0. clear.
    induction envs as [|env' envs IH]; intros c0 ct; simpl; [intros []|].
    intros [<-|Hin]; [now exists env' | eapply IH; eassumption]. }
  pose proof (run_ticks_start_le keep_on_raise sensor envs (cursor_after cursor (effects t)))
    as Hstart.
  rewrite Forall_forall in Hstart. apply Forall_forall. intros ct Hct r2 Hr2.
  destruct (Hticks ct Hct) as [env' Henv']. rewrite Henv' in Hr2.
  destruct (tick_evaluated_after _ _ _ _ Hr2) as (b2 & Hb2 & Hlt2).
  specialize (Hstart ct Hct). unfold cursor_le in Hstart.
  fold t in Hb1. rewrite Hb1, Hb2 in Hstart. lia.
Qed.

(** ** The first tick *)

(** C5. A tick that finds no stored cursor, or a stored cursor that is
    not valid, evaluates no event (it does not even look one up), yields
    exactly one [SkipReason] and nothing else, ends without an exception,
    and updates the cursor once, to the latest id of an event of the
    monitored type in the log, or to [-1] if the log has no such event. *)
Theorem first_tick_skips_history (sensor : RunStatusSensorDefinition)
    (cursor : option string) (env : TickEnv) :
  cursor = None \/ (exists s, cursor = Some s /\ is_valid s = false) ->
  let t := tick sensor cursor env in
  evaluated (effects t) = []
  /\ inspected (effects t) = []
  /\ (exists msg, outputs (effects t) = [SkipReason msg])
  /\ raised t = None
  /\ exists m,
       is_latest_event_id (env_instance env) (event_type sensor) m
       /\ cursor_updates (effects t) = [to_json (mkCursor m (isoformat (env_now env)))]
       /\ stored_record_id (cursor_after cursor (effects t)) = Some m.
Proof.
  intros Hfirst t.
  assert (t = initiate sensor (env_now env)
                (mkSensorEvaluationContext cursor (env_instance env)
                   (env_repository_name env))) as ->.
  { unfold t, tick, _wrapped_fn. cbn [ctx_cursor].
    destruct Hfirst as [->|(s & -> & Hv)]; [reflexivity | now rewrite Hv]. }
  unfold initiate. cbn [emit effects finished raised ctx_instance List.app].
  split; [reflexivity|]. split; [reflexivity|].
  split; [eexists; reflexivity|]. split; [reflexivity|].
  eexists. split; [apply most_recent_event_id_latest|].
  split; [reflexivity|].
  unfold cursor_after. simpl. now rewrite SerdesFacts.from_json_to_json.
Qed.

(** ** The batch of a scanning tick *)

(** C8. A scanning tick fetches at most five events, all of the
    monitored type, all with an id greater than the record id of the
    cursor, in ascending order of id; and whatever the tick, the events
    it inspects are at most five, are of the monitored type, come in
    ascending order of id and after the record id of the stored cursor. *)
Theorem at_most_five_events_per_tick (sensor : RunStatusSensorDefinition)
    (cursor : option string) (env : TickEnv) :
  let context :=
    mkSensorEvaluationContext cursor (env_instance env) (env_repository_name env) in
  let seen := inspected (effects (tick sensor cursor env)) in
  (forall id after,
      let batch := fetch sensor context id after in
      (List.length batch <= 5)%nat
      /\ Forall (fun r => has_event_type (event_type sensor) r = true
                          /\ id < storage_id r) batch
      /\ StronglySorted id_le batch)
  /\ (List.length seen <= 5)%nat
  /\ StronglySorted id_le seen
  /\ Forall (fun r => has_event_type (event_type sensor) r = true
                      /\ exists b, stored_record_id cursor = Some b /\ b < storage_id r)
            seen.
Proof.
  intros context seen. split.
  - intros id after. destruct (fetch_spec sensor context id after) as (Hlen & Hall & Hs).
    repeat split; auto. eapply Forall_impl; [|exact Hall]. simpl. tauto.
  - unfold seen.
    destruct (tick_cases sensor cursor env) as [Hid Ht | c Hid Ht | c after Hid Ht];
      rewrite Ht; try (simpl; repeat split; auto using Nat.le_0_l; constructor).
    cbv zeta. fold context.
    destruct (fetch_spec sensor context (record_id c) after) as (Hlen & Hall & Hs).
    destruct (scan_inspected sensor context (fetch sensor context (record_id c) after))
      as [n ->].
    repeat split.
    + etransitivity; [|exact Hlen]. rewrite length_firstn. apply Nat.le_min_r.
    + now apply firstn_sorted.
    + apply Forall_forall. intros r Hr. apply firstn_incl in Hr.
      rewrite Forall_forall in Hall. destruct (Hall r Hr) as (_ & Hty & Hlt). eauto.
Qed.

(** ** Events whose run is not found *)

(** C9. When the lookup of the run of an event does not give exactly one
    record, the pass inspects the event, does not call the user function,
    moves the cursor to the id of the event with the timestamp of the
    event as update timestamp, raises nothing, and the loop goes on with
    the next event. *)
Theorem unresolved_run_is_skipped (sensor : RunStatusSensorDefinition)
    (context : SensorEvaluationContext) (r : EventLogRecord) (rest : list EventLogRecord) :
  List.length (get_run_records (ctx_instance context) [entry_run_id (event_log_entry r)])
    <> 1%nat ->
  scan sensor context (r :: rest)
  = emit [Inspect r;
          UpdateCursor
            (to_json (mkCursor (storage_id r)
                        (isoformat (utc_datetime_from_timestamp
                                      (timestamp (event_log_entry r))))))]
         (scan sensor context rest).
Proof.
  intros Hlen. simpl scan. rewrite visit_by_verdict.
  now rewrite (verdict_unresolved sensor context r Hlen).
Qed.

(** ** The first event that matches *)

(** C1, as the code has it. At the first event of the batch that matches,
    nothing has been yielded yet and the events inspected are those up to
    it; the cursor is moved to it.  When the user function returns a
    value that is not [None], this value (the items of an iterable) is
    yielded and the tick ends there: no later event is inspected.  When
    the user function raises, also while its items are consumed, or
    returns [None], one reaction for the event is yielded, with the error
    or without, and the loop goes on with the events that follow in the
    batch. *)
Theorem first_match_decides (sensor : RunStatusSensorDefinition)
    (context : SensorEvaluationContext) (pre post : list EventLogRecord)
    (r : EventLogRecord) (rr : RunRecord) (called : list Effect) (ret : UserResult) :
  Forall (is_skipped sensor context) pre ->
  verdict sensor context r = Matched rr ->
  invoke sensor context (dagster_run rr) r = (called, ret) ->
  let cursor := UpdateCursor (cursor_json (storage_id r) (run_update_timestamp rr)) in
  let reaction err :=
    Yield (PipelineRunReaction (dagster_run rr) (run_status sensor) err) in
  let upto := (effects (scan sensor context pre) ++ Inspect r :: called)%list in
  outputs upto = []
  /\ inspected upto = (pre ++ [r])%list
  /\ scan sensor context (pre ++ r :: post)
     = match ret with
       | UReturn (RetOutput o) => mkTickResult (upto ++ [cursor; Yield o]) None
       | UReturn (RetIterable items None) =>
           mkTickResult (upto ++ cursor :: map Yield items) None
       | UReturn RetNone =>
           emit (upto ++ [cursor; reaction None]) (scan sensor context post)
       | URaise e =>
           emit (upto ++ [cursor; reaction (Some (captured (name sensor) e))])
                (scan sensor context post)
       | UReturn (RetIterable items (Some e)) =>
           emit (upto ++ (cursor :: map Yield items)
                      ++ [cursor; reaction (Some (captured (name sensor) e))])
                (scan sensor context post)
       end.
Proof.
  intros Hpre Hv Hinv cursor reaction upto.
  destruct (@scan_skipped sensor context pre (r :: post) Hpre) as (Hscan & Ho & _ & Hi).
  destruct (invoke_spec _ _ _ _ Hinv) as (Hci & _ & Hco & _).
  unfold upto. rewrite outputs_app, inspected_app, Ho, Hi. simpl.
  rewrite Hci, Hco. repeat split; auto.
  rewrite Hscan. simpl scan. rewrite visit_by_verdict, Hv. unfold react. rewrite Hinv.
  destruct ret as [e|[|o|items [e|]]]; unfold emit, finished; simpl;
    rewrite <- ?List.app_assoc; simpl; rewrite ?List.app_nil_r; reflexivity.
Qed.

(** ** Runs without an origin *)

Lemma job_match_without_origin sensor context (run : DagsterRun) :
  monitor_all_repositories sensor = false ->
  external_pipeline_origin run = None ->
  job_match sensor context run = Raise (CheckError "Expected non-None value").
Proof. intros Hall Ho. unfold job_match. rewrite Hall, Ho. reflexivity. Qed.

(** C2, as the code has it. For a sensor that does not monitor all
    repositories, the pass over an event whose run has no external origin
    raises a [CheckError]: the tick ends there, the cursor is not moved to
    the event and the events that follow are not looked at. *)
Theorem run_without_origin_raises (sensor : RunStatusSensorDefinition)
    (context : SensorEvaluationContext) (r : EventLogRecord) (rr : RunRecord)
    (rest : list EventLogRecord) :
  monitor_all_repositories sensor = false ->
  get_run_records (ctx_instance context) [entry_run_id (event_log_entry r)] = [rr] ->
  external_pipeline_origin (dagster_run rr) = None ->
  scan sensor context (r :: rest)
  = mkTickResult [Inspect r] (Some (CheckError "Expected non-None value")).
Proof.
  intros Hall Hrr Ho. simpl scan. unfold visit. rewrite Hrr.
  now rewrite (job_match_without_origin sensor context (dagster_run rr) Hall Ho).
Qed.

(** ** Exceptions of the user function *)

(** C6. When the user function raises on an event that matched, at the
    call or while the items it returned are consumed, the exception ends
    up in an error descriptor that holds its message and its trace; the
    cursor is moved to the event; a reaction for the run that carries the
    descriptor is yielded; and the pass raises nothing: the loop goes on,
    and the tick ends as the rest of the batch makes it end. *)
Theorem user_exception_is_captured (sensor : RunStatusSensorDefinition)
    (context : SensorEvaluationContext) (r : EventLogRecord) (rr : RunRecord)
    (rest : list EventLogRecord) (called : list Effect) (items : list SensorOutput)
    (e : Exn) :
  verdict sensor context r = Matched rr ->
  (invoke sensor context (dagster_run rr) r = (called, URaise e) /\ items = []
   \/ invoke sensor context (dagster_run rr) r
      = (called, UReturn (RetIterable items (Some e)))) ->
  let cursor := to_json (mkCursor (storage_id r) (isoformat (run_update_timestamp rr))) in
  let descriptor :=
    mkSerializableErrorInfo (exn_class e ++ ": " ++ exn_message e) (exn_trace e)
      (exn_class e) in
  exists before,
    scan sensor context (r :: rest)
    = emit (before
            ++ [UpdateCursor cursor;
                Yield (PipelineRunReaction (dagster_run rr) (run_status sensor)
                         (Some descriptor))])
           (scan sensor context rest)
    /\ inspected before = [r]
    /\ outputs before = items
    /\ Forall (eq cursor) (cursor_updates before)
    /\ raised (scan sensor context (r :: rest)) = raised (scan sensor context rest).
Proof.
  intros Hv Hinv cursor descriptor.
  assert (Hc : inspected called = [] /\ cursor_updates called = [] /\ outputs called = []).
  { destruct Hinv as [[Hinv _]|Hinv]; destruct (invoke_spec _ _ _ _ Hinv) as (? & ? & ? & _);
      auto. }
  destruct Hc as (Hci & Hcu & Hco).
  simpl scan. rewrite visit_by_verdict, Hv. unfold react.
  destruct Hinv as [[Hinv ->]|Hinv]; rewrite Hinv.
  - exists (Inspect r :: called). simpl. rewrite Hci, Hcu, Hco.
    repeat split; auto.
  - exists (Inspect r :: called ++ UpdateCursor cursor :: map Yield items)%list.
    simpl. autorewrite with trace. rewrite Hci, Hcu, Hco. simpl.
    autorewrite with trace.
    repeat split; auto.
    unfold emit. simpl. repeat (rewrite <- List.app_assoc; simpl). reflexivity.
Qed.

(** ** Registration *)

(** Whatever its arguments, the decorator does what [__init__] does: it
    never raises a [DagsterInvalidDefinitionError]. *)
Lemma run_status_sensor_never_rejects (status : DagsterRunStatus)
    (given_name : option string) (jobs selection : option (list MonitoredJob))
    (all : bool) (fn : UserFn) (msg : string) :
  run_status_sensor status given_name jobs selection all fn
  <> Raise (DagsterInvalidDefinitionError msg).
Proof.
  unfold run_status_sensor, __init__.
  destruct (PIPELINE_RUN_STATUS_TO_EVENT_TYPE status); discriminate.
Qed.

(** C3, as the code has it. With [monitor_all_repositories] set and jobs
    given, through [monitored_jobs] or through [job_selection], the
    decorator raises nothing: whenever the run status has an event type,
    it returns a sensor definition that holds the flag and the jobs. *)
Theorem monitor_all_with_jobs_is_accepted (status : DagsterRunStatus)
    (given_name : option string) (jobs selection : option (list MonitoredJob))
    (fn : UserFn) (ty : DagsterEventType) :
  PIPELINE_RUN_STATUS_TO_EVENT_TYPE status = Some ty ->
  opt_truthy jobs || opt_truthy selection = true ->
  exists d,
    run_status_sensor status given_name jobs selection true fn = Ok d
    /\ monitor_all_repositories d = true
    /\ truthy (monitored_jobs d) = true.
Proof.
  intros Hty Hjobs. unfold run_status_sensor, __init__. rewrite Hty.
  eexists. split; [reflexivity|]. split; [reflexivity|]. simpl.
  destruct jobs as [[|j js]|]; simpl in *;
    try (destruct selection as [[|j' js']|]; simpl in *; try discriminate);
    reflexivity.
Qed.

(** ** Direct invocation *)

(** C10, as the code has it. A function that declares a parameter is
    refused with [DagsterInvalidInvocationError] when it is invoked with
    no argument or with more than one; a function that declares none is
    refused when it is invoked with an argument.  With the one argument
    it looks for, given by position or under the name of the first
    parameter, the function is called exactly once with it when it is a
    context; [None] in its place and a keyword of another name are
    refused with [DagsterInvalidInvocationError], a value of another
    type with a [CheckError].  A function without parameters invoked
    without argument is called exactly once, with no argument. *)
Theorem direct_invocation_checks_arguments (self : RunStatusSensorDefinition)
    (args : list PyValue) (kwargs : list (string * PyValue)) :
  let fn := _run_status_sensor_fn self in
  let inv := __call__ self args kwargs in
  let refused := exists msg, inv = refuse (DagsterInvalidInvocationError msg) in
  let checked (v : PyValue) :=
    match v with
    | PyContext c => inv = apply_fn fn (Some c)
    | PyNone => refused
    | PyOther _ => exists msg, inv = refuse (CheckError msg)
    end in
  match fn_params fn with
  | [] =>
      match args, kwargs with
      | [], [] => inv = apply_fn fn None
      | _, _ => refused
      end
  | p :: _ =>
      match args, kwargs with
      | [], [] => refused
      | [v], [] => checked v
      | [], [(k, v)] => if String.eqb p k then checked v else refused
      | _, _ => refused
      end
  end.
Proof.
  unfold __call__, refuse, has_at_least_one_parameter, first_param_name.
  destruct (fn_params (_run_status_sensor_fn self)) as [|p ps].
  - destruct args as [|a args], kwargs as [|kv kwargs]; simpl; eauto.
  - destruct args as [|a [|a' args]], kwargs as [|[k v] [|kv' kwargs]];
      simpl; eauto;
      try (destruct a; simpl; eauto);
      try (destruct (String.eqb p k); simpl; eauto; destruct v; simpl; eauto);
      try (rewrite Nat.add_comm; simpl; eauto).
Qed.

(** ** The scope of a sensor *)

Lemma py_in_In {A} (eqb : A -> A -> bool) (x : A) (l : list A) :
  (forall a b, eqb a b = true <-> a = b) ->
  py_in eqb x l = true <-> In x l.
Proof.
  intros Heqb. unfold py_in. rewrite existsb_exists. split.
  - intros (y & Hy & Hxy). apply Heqb in Hxy. now subst.
  - intros Hx. exists x. split; [exact Hx | now apply Heqb].
Qed.

Lemma job_selector_eqb_eq (a b : JobSelector) : job_selector_eqb a b = true <-> a = b.
Proof.
  unfold job_selector_eqb. rewrite !andb_true_iff, !String.eqb_eq.
  destruct a, b; simpl. split; [intros [[-> ->] ->]; reflexivity | intros [= -> -> ->]; auto].
Qed.

Lemma repository_selector_eqb_eq (a b : RepositorySelector) :
  repository_selector_eqb a b = true <-> a = b.
Proof.
  unfold repository_selector_eqb. rewrite !andb_true_iff, !String.eqb_eq.
  destruct a, b; simpl. split; [intros [-> ->]; reflexivity | intros [= -> ->]; auto].
Qed.

Lemma In_repository_selectors (s : RepositorySelector) (l : list MonitoredJob) :
  In s (repository_selectors (map coerced l))
  <-> In (RepoSel s) l \/ exists c, In (CodeLocSel c) l /\ s = to_repository_selector c.
Proof.
  unfold repository_selectors. rewrite in_flat_map. split.
  - intros (x & Hx & Hs). apply in_map_iff in Hx. destruct Hx as (y & <- & Hy).
    destruct y; simpl in Hs; try contradiction; destruct Hs as [<-|[]]; eauto.
  - intros [Hr | (c & Hc & ->)].
    + exists (RepoSel s). split; [|now left].
      apply in_map_iff. now exists (RepoSel s).
    + exists (RepoSel (to_repository_selector c)). split; [|now left].
      apply in_map_iff. now exists (CodeLocSel c).
Qed.

Lemma In_job_selectors (s : JobSelector) (l : list MonitoredJob) :
  In s (job_selectors (map coerced l)) <-> In (JobSel s) l.
Proof.
  unfold job_selectors. rewrite in_flat_map. split.
  - intros (x & Hx & Hs). apply in_map_iff in Hx. destruct Hx as (y & <- & Hy).
    destruct y; simpl in Hs; try contradiction; destruct Hs as [<-|[]]; auto.
  - intros Hj. exists (JobSel s). split; [|now left].
    apply in_map_iff. now exists (JobSel s).
Qed.

Lemma In_current_job_names (n : string) (l : list MonitoredJob) :
  In n (job_names (filter (fun x => negb (is_selector x)) (map coerced l)))
  <-> In (JobDef n) l.
Proof.
  unfold job_names. rewrite in_flat_map. split.
  - intros (x & Hx & Hn). apply filter_In in Hx. destruct Hx as [Hx _].
    apply in_map_iff in Hx. destruct Hx as (y & <- & Hy).
    destruct y; simpl in Hn; try contradiction; destruct Hn as [<-|[]]; auto.
  - intros Hj. exists (JobDef n). split; [|now left].
    apply filter_In. split; [|reflexivity]. apply in_map_iff. now exists (JobDef n).
Qed.

(** What [__init__] stores. *)
Lemma init_fields (nm : string) (st : DagsterRunStatus) (fn : UserFn)
    (jobs : option (list MonitoredJob)) (all : bool) (d : RunStatusSensorDefinition) :
  __init__ nm st fn jobs all = Ok d ->
  let l := map coerced (match jobs with Some l => l | None => [] end) in
  name d = nm /\ run_status d = st
  /\ PIPELINE_RUN_STATUS_TO_EVENT_TYPE st = Some (event_type d)
  /\ _run_status_sensor_fn d = fn
  /\ monitored_jobs d = l
  /\ monitor_all_repositories d = all
  /\ other_repos d = repository_selectors l
  /\ other_repo_jobs d = job_selectors l
  /\ current_repo_jobs d = filter (fun x => negb (is_selector x)) l.
Proof.
  unfold __init__. fold coerced.
  destruct (PIPELINE_RUN_STATUS_TO_EVENT_TYPE st) as [ty|]; [|discriminate].
  intros [= <-]. simpl.
  destruct (map coerced match jobs with Some l => l | None => [] end); simpl; repeat split.
Qed.

Lemma run_status_sensor_init (st : DagsterRunStatus) (nm : option string)
    (mj js : option (list MonitoredJob)) (all : bool) (fn : UserFn) :
  run_status_sensor st nm mj js all fn
  = __init__ (match nm with Some (String c n) => String c n | _ => fn_name fn end)
      st fn (if opt_truthy mj then mj else js) all.
Proof. reflexivity. Qed.

(** The flag that the loop computes for a run that has an origin. *)
Lemma job_match_with_origin sensor context (run : DagsterRun) (o : ExternalPipelineOrigin) :
  external_pipeline_origin run = Some o ->
  let ero := external_repository_origin o in
  job_match sensor context run
  = Ok (monitor_all_repositories sensor
        || (match ctx_repository_name context with
            | Some current => String.eqb (repository_name ero) current
            | None => false
            end
            && (negb (truthy (monitored_jobs sensor))
                || py_in String.eqb (pipeline_name run) (job_names (current_repo_jobs sensor))))
        || py_in job_selector_eqb
             (mkJobSelector (location_name (repository_location_origin ero))
                (repository_name ero) (pipeline_name run))
             (other_repo_jobs sensor)
        || py_in repository_selector_eqb
             (mkRepositorySelector (location_name (repository_location_origin ero))
                (repository_name ero))
             (other_repos sensor)).
Proof.
  intros Ho ero. subst ero. unfold job_match. rewrite Ho.
  repeat (cbn [bind not_none negb andb orb];
          match goal with
         | |- context [monitor_all_repositories ?s] => destruct (monitor_all_repositories s)
         | |- context [ctx_repository_name ?c] => destruct (ctx_repository_name c)
         | |- context [String.eqb ?a ?b] => destruct (String.eqb a b)
         | |- context [truthy ?l] => destruct (truthy l)
         | |- context [py_in ?e ?x ?l] => destruct (py_in e x l)
         end); reflexivity.
Qed.

Lemma job_match_scope (st : DagsterRunStatus) (nm : option string)
    (mj js : option (list MonitoredJob)) (all : bool) (fn : UserFn)
    (d : RunStatusSensorDefinition) (context : SensorEvaluationContext)
    (run : DagsterRun) (o : ExternalPipelineOrigin) :
  run_status_sensor st nm mj js all fn = Ok d ->
  external_pipeline_origin run = Some o ->
  let jobs := effective_jobs mj js in
  let loc := location_name (repository_location_origin (external_repository_origin o)) in
  let repo := repository_name (external_repository_origin o) in
  let job := pipeline_name run in
  exists b,
    job_match d context run = Ok b
    /\ (b = true <->
        all = true
        \/ (ctx_repository_name context = Some repo /\ (jobs = [] \/ In (JobDef job) jobs))
        \/ In (JobSel (mkJobSelector loc repo job)) jobs
        \/ In (RepoSel (mkRepositorySelector loc repo)) jobs
        \/ (repo = "__repository__" /\ In (CodeLocSel (mkCodeLocationSelector loc)) jobs)).
Proof.
  intros Hd Ho jobs loc repo job. rewrite run_status_sensor_init in Hd.
  apply init_fields in Hd. fold (effective_jobs mj js) in Hd. fold jobs in Hd.
  destruct Hd as (_ & _ & _ & _ & Hm & Hall & Hr & Hj & Hc).
  rewrite (job_match_with_origin d context run Ho). fold loc repo job.
  rewrite Hm, Hall, Hr, Hj, Hc. eexists. split; [reflexivity|].
  rewrite !orb_true_iff, andb_true_iff, orb_true_iff, negb_true_iff.
  rewrite !py_in_In by (first [apply String.eqb_eq | apply job_selector_eqb_eq
                              | apply repository_selector_eqb_eq]).
  rewrite In_current_job_names, In_job_selectors, In_repository_selectors.
  assert (Hcur : match ctx_repository_name context with
                 | Some current => String.eqb repo current
                 | None => false
                 end = true <-> ctx_repository_name context = Some repo).
  { destruct (ctx_repository_name context) as [current|].
    - rewrite String.eqb_eq. split; [now intros -> | now intros [= ->]].
    - split; discriminate. }
  assert (Hempty : truthy (map coerced jobs) = false <-> jobs = []).
  { destruct jobs; simpl; split; congruence. }
  rewrite Hcur, Hempty.
  assert (Hloc : (exists c, In (CodeLocSel c) jobs
                            /\ mkRepositorySelector loc repo = to_repository_selector c)
                 <-> repo = "__repository__"
                     /\ In (CodeLocSel (mkCodeLocationSelector loc)) jobs).
  { split.
    - intros ([c] & Hin & [= -> ->]). auto.
    - intros [-> Hin]. now exists (mkCodeLocationSelector loc). }
  rewrite Hloc. tauto.
Qed.

(** When the loop's computation of [job_match] raises. *)
Lemma job_match_cases sensor context (run : DagsterRun) :
  match monitor_all_repositories sensor, external_pipeline_origin run with
  | true, _ => job_match sensor context run = Ok true
  | false, None => job_match sensor context run = Raise (CheckError "Expected non-None value")
  | false, Some _ => exists b, job_match sensor context run = Ok b
  end.
Proof.
  destruct (monitor_all_repositories sensor) eqn:Hall.
  - unfold job_match. rewrite Hall. reflexivity.
  - destruct (external_pipeline_origin run) as [o|] eqn:Ho.
    + rewrite (job_match_with_origin sensor context run Ho). eauto.
    + now apply job_match_without_origin.
Qed.

(** X1. The computation of [job_match] gives [True] for every run when the
    sensor monitors all repositories, also for a run without origin; for
    another sensor it raises exactly on the runs without origin and gives
    a flag on all the others. *)
Theorem job_match_fails_only_without_origin (sensor : RunStatusSensorDefinition)
    (context : SensorEvaluationContext) (run : DagsterRun) :
  match monitor_all_repositories sensor, external_pipeline_origin run with
  | true, _ => job_match sensor context run = Ok true
  | false, None => job_match sensor context run = Raise (CheckError "Expected non-None value")
  | false, Some _ => exists b, job_match sensor context run = Ok b
  end.
Proof. apply job_match_cases. Qed.

(** X2. For a sensor that [run_status_sensor] returned, a run with an
    origin matches exactly when the sensor monitors all repositories, or
    the run is of the repository of the context and either no job was given
    or its job is among the jobs given, or a job selector given names its
    location, repository and job, or a repository selector given names its
    location and repository, or a code location selector given names its
    location and its repository is ["__repository__"].  The jobs given are
    [monitored_jobs], or [job_selection] when [monitored_jobs] is [None] or
    empty. *)
Theorem scope_of_monitored_jobs (st : DagsterRunStatus) (nm : option string)
    (mj js : option (list MonitoredJob)) (all : bool) (fn : UserFn)
    (d : RunStatusSensorDefinition) (context : SensorEvaluationContext)
    (run : DagsterRun) (o : ExternalPipelineOrigin) :
  run_status_sensor st nm mj js all fn = Ok d ->
  external_pipeline_origin run = Some o ->
  let jobs := effective_jobs mj js in
  let loc := location_name (repository_location_origin (external_repository_origin o)) in
  let repo := repository_name (external_repository_origin o) in
  let job := pipeline_name run in
  exists b,
    job_match d context run = Ok b
    /\ (b = true <->
        all = true
        \/ (ctx_repository_name context = Some repo /\ (jobs = [] \/ In (JobDef job) jobs))
        \/ In (JobSel (mkJobSelector loc repo job)) jobs
        \/ In (RepoSel (mkRepositorySelector loc repo)) jobs
        \/ (repo = "__repository__" /\ In (CodeLocSel (mkCodeLocationSelector loc)) jobs)).
Proof. intros Hd Ho. exact (job_match_scope st nm mj js all fn context run Hd Ho). Qed.


Lemma split_lengths (l : list MonitoredJob) :
  (List.length (repository_selectors (map coerced l))
   + List.length (job_selectors (map coerced l))
   + List.length (filter (fun x => negb (is_selector x)) (map coerced l))
   = List.length l)%nat.
Proof.
  induction l as [|x l IH]; [reflexivity|].
  destruct x; simpl; lia.
Qed.

(** X4. [__init__] turns every code location selector into a repository
    selector and splits the jobs given three ways: every entry is counted
    once among the repository selectors, the job selectors and the jobs of
    the current repository, these last are job definitions only, and no
    code location selector is left. *)
Theorem init_splits_monitored_jobs (nm : string) (st : DagsterRunStatus) (fn : UserFn)
    (jobs : option (list MonitoredJob)) (all : bool) (d : RunStatusSensorDefinition) :
  __init__ nm st fn jobs all = Ok d ->
  let l := match jobs with Some l => l | None => [] end in
  monitored_jobs d = map coerced l
  /\ (List.length (other_repos d) + List.length (other_repo_jobs d)
      + List.length (current_repo_jobs d) = List.length l)%nat
  /\ Forall (fun x => exists n, x = JobDef n) (current_repo_jobs d)
  /\ Forall (fun x => match x with CodeLocSel _ => False | _ => True end) (monitored_jobs d)
  /\ Forall (fun s => In (RepoSel s) l
                      \/ exists c, In (CodeLocSel c) l /\ s = to_repository_selector c)
            (other_repos d).
Proof.
  intros Hd l. apply init_fields in Hd. fold l in Hd.
  destruct Hd as (_ & _ & _ & _ & Hm & _ & Hr & Hj & Hc).
  rewrite Hm, Hr, Hj, Hc. split; [reflexivity|]. split; [apply split_lengths|].
  repeat split.
  - apply Forall_forall. intros x Hx. apply filter_In in Hx. destruct Hx as [Hx Hs].
    apply in_map_iff in Hx. destruct Hx as (y & <- & _).
    destruct y; simpl in Hs; try discriminate. eexists. reflexivity.
  - apply Forall_forall. intros x Hx. apply in_map_iff in Hx. destruct Hx as (y & <- & _).
    now destruct y.
  - apply Forall_forall. intros s Hs. now apply In_repository_selectors.
Qed.

(** ** More on the loop and the tick *)

(** X5. When no event of the batch matches, the loop yields nothing, calls
    the user function for no event and raises nothing: it inspects every
    event of the batch and updates the cursor once for each, to its id. *)
Theorem batch_without_match_only_moves_cursor (sensor : RunStatusSensorDefinition)
    (context : SensorEvaluationContext) (batch : list EventLogRecord) :
  Forall (is_skipped sensor context) batch ->
  let t := scan sensor context batch in
  raised t = None
  /\ outputs (effects t) = []
  /\ evaluated (effects t) = []
  /\ inspected (effects t) = batch
  /\ map (fun s => stored_record_id (Some s)) (cursor_updates (effects t))
     = map (fun r => Some (storage_id r)) batch.
Proof.
  induction 1 as [|r batch Hr Hbatch IH]; [repeat split|].
  destruct IH as (IHr & IHo & IHe & IHi & IHu).
  simpl scan. rewrite visit_by_verdict. unfold is_skipped in Hr.
  destruct (verdict sensor context r); try contradiction;
    unfold skip_effects, emit; cbn [effects raised];
    rewrite outputs_app, evaluated_app, inspected_app, cursor_updates_app, IHo, IHe, IHi;
    cbn [outputs evaluated inspected cursor_updates flat_map List.app map];
    rewrite IHu; (repeat split; auto); f_equal;
    apply (stored_record_id_writes (cursor_json_writes _ _)).
Qed.

Lemma is_valid_of_from_json (s : string) (c : RunStatusSensorCursor) :
  from_json s = Ok c -> is_valid s = true.
Proof. intros Hc. apply is_valid_from_json. eauto. Qed.

(** A tick that finds a cursor it can read scans. *)
Lemma tick_scans sensor (s : string) (c : RunStatusSensorCursor) (after : DateTime) env :
  from_json s = Ok c ->
  pendulum_parse (update_timestamp c) = Some after ->
  let context :=
    mkSensorEvaluationContext (Some s) (env_instance env) (env_repository_name env) in
  tick sensor (Some s) env = scan sensor context (fetch sensor context (record_id c) after).
Proof.
  intros Hc Hp context. unfold tick, _wrapped_fn. cbn [ctx_cursor].
  rewrite (is_valid_of_from_json s Hc). cbn [negb]. now rewrite Hc, Hp.
Qed.

Lemma sort_by_id_nil (l : list EventLogRecord) : sort_by_id l = [] -> l = [].
Proof.
  intros Hs. destruct l as [|x l]; [reflexivity|].
  assert (In x (sort_by_id (x :: l))) as Hin by (apply sort_by_id_In; now left).
  rewrite Hs in Hin. destruct Hin.
Qed.

(** The batch is empty exactly when the log has no event of the type
    after the cursor. *)
Lemma fetch_nil_iff sensor context (id : Z) (after : DateTime) :
  fetch sensor context id after = []
  <-> forall r, In r (event_log (ctx_instance context)) ->
                has_event_type (event_type sensor) r = true -> storage_id r <= id.
Proof.
  unfold fetch, get_event_records, take_limit. split.
  - intros Hnil r Hr Hty.
    destruct (sort_by_id (filter _ (event_log (ctx_instance context)))) as [|x l] eqn:Hs;
      [|discriminate].
    apply sort_by_id_nil in Hs.
    destruct (Z.leb_spec (storage_id r) id) as [Hle|Hlt]; [exact Hle|].
    assert (In r (filter (record_selected
                            (mkEventRecordsFilter (event_type sensor)
                               (Some (mkRunShardedEventsCursor id after))))
                    (event_log (ctx_instance context)))) as Hin.
    { apply filter_In. split; [exact Hr|]. unfold record_selected. simpl.
      rewrite Hty. simpl. now apply Z.ltb_lt. }
    rewrite Hs in Hin. destruct Hin.
  - intros Hall.
    destruct (sort_by_id (filter _ (event_log (ctx_instance context)))) as [|x l] eqn:Hs;
      [reflexivity|].
    assert (In x (sort_by_id (filter (record_selected
                            (mkEventRecordsFilter (event_type sensor)
                               (Some (mkRunShardedEventsCursor id after))))
                    (event_log (ctx_instance context))))) as Hin by (rewrite Hs; now left).
    apply sort_by_id_In, filter_In in Hin. destruct Hin as [Hlog Hsel].
    unfold record_selected in Hsel. simpl in Hsel. apply andb_true_iff in Hsel.
    destruct Hsel as [Hty Hlt]. apply Z.ltb_lt in Hlt.
    specialize (Hall x Hlog Hty). lia.
Qed.

Lemma scan_finished_iff sensor context (batch : list EventLogRecord) :
  scan sensor context batch = finished <-> batch = [].
Proof.
  split; [|now intros ->].
  destruct batch as [|r rest]; [reflexivity|]. intros Hf. exfalso.
  assert (inspected (effects (scan sensor context (r :: rest))) = []) as Hi
      by now rewrite Hf.
  simpl scan in Hi. destruct (visit sensor context r) as [es k] eqn:Hv.
  destruct (visit_spec _ _ _ Hv) as (Hes & _).
  destruct k; simpl in Hi; rewrite inspected_app, Hes in Hi; discriminate.
Qed.

(** X6. A tick that starts from a cursor it can read does nothing at all,
    no effect and no exception, exactly when the log holds no event of the
    monitored type with an id above the record id of the cursor. *)
Theorem caught_up_tick_does_nothing (sensor : RunStatusSensorDefinition)
    (s : string) (c : RunStatusSensorCursor) (after : DateTime) (env : TickEnv) :
  from_json s = Ok c ->
  pendulum_parse (update_timestamp c) = Some after ->
  tick sensor (Some s) env = finished
  <-> forall r, In r (event_log (env_instance env)) ->
                has_event_type (event_type sensor) r = true ->
                storage_id r <= record_id c.
Proof.
  intros Hc Hp. rewrite (tick_scans sensor s env Hc Hp).
  rewrite scan_finished_iff. apply fetch_nil_iff.
Qed.


(** What a tick inspects: at most five events, each after the record id of
    the cursor it started from. *)
Lemma tick_inspected_spec sensor cursor env :
  (List.length (inspected (effects (tick sensor cursor env))) <= 5)%nat
  /\ Forall (fun r => exists b, stored_record_id cursor = Some b /\ b < storage_id r)
            (inspected (effects (tick sensor cursor env))).
Proof.
  destruct (tick_cases sensor cursor env) as [Hid Ht | c Hid Ht | c after Hid Ht];
    rewrite Ht; try (simpl; split; [apply Nat.le_0_l | constructor]).
  cbv zeta.
  destruct (fetch_spec sensor
              (mkSensorEvaluationContext cursor (env_instance env) (env_repository_name env))
              (record_id c) after) as (Hlen & Hall & _).
  destruct (scan_inspected sensor
              (mkSensorEvaluationContext cursor (env_instance env) (env_repository_name env))
              (fetch sensor
                 (mkSensorEvaluationContext cursor (env_instance env)
                    (env_repository_name env)) (record_id c) after)) as [n ->].
  split.
  - etransitivity; [|exact Hlen]. rewrite length_firstn. apply Nat.le_min_r.
  - apply Forall_forall. intros r Hr. apply firstn_incl in Hr.
    rewrite Forall_forall in Hall. destruct (Hall r Hr) as (_ & _ & Hlt). eauto.
Qed.


Lemma last_of_snoc {A} (l : list A) (x : A) : last_of (l ++ [x]) = Some x.
Proof. unfold last_of. rewrite map_app. simpl. apply last_last. Qed.

Lemma nonempty_snoc {A} (P : A -> Prop) (l : list A) :
  l <> [] -> Forall P l -> exists l' x, l = (l' ++ [x])%list /\ P x.
Proof.
  intros Hne Hall. destruct (exists_last Hne) as (l' & x & ->).
  exists l', x. split; [reflexivity|].
  rewrite Forall_forall in Hall. apply Hall. apply in_or_app. right. now left.
Qed.

(** The events dealt with and the updates of the cursor end together. *)
Lemma scan_processed sensor context (batch : list EventLogRecord) :
  let t := scan sensor context batch in
  ((processed t = [] /\ cursor_updates (effects t) = [])
   \/ exists l r us s, processed t = (l ++ [r])%list
                       /\ cursor_updates (effects t) = (us ++ [s])%list
                       /\ writes_id (storage_id r) s)
  /\ match raised t with
     | Some _ => exists l r, inspected (effects t) = (l ++ [r])%list
     | None => True
     end.
Proof.
  induction batch as [|r0 rest [IH IHr]]; [simpl; auto|].
  simpl scan. destruct (visit sensor context r0) as [es k] eqn:Hv.
  destruct (visit_spec _ _ _ Hv) as (Hi & Hw & _ & Hk).
  destruct k.
  - set (t' := scan sensor context rest) in *.
    assert (Hp : processed (emit es t') = r0 :: processed t').
    { unfold processed. cbn [emit raised effects]. rewrite inspected_app, Hi.
      destruct (raised t') as [e|]; [|reflexivity].
      destruct IHr as (l & r & ->). now destruct l. }
    split.
    + right. rewrite Hp. cbn [emit effects]. rewrite cursor_updates_app.
      destruct IH as [[-> ->] | (l & r & us & s & -> & -> & Hs)].
      * destruct (nonempty_snoc Hk Hw) as (us & s & -> & Hs).
        exists [], r0, us, s. rewrite List.app_nil_r. auto.
      * exists (r0 :: l), r, (cursor_updates es ++ us)%list, s.
        rewrite List.app_assoc. auto.
    + cbn [emit raised effects]. destruct (raised t') as [e|]; [|exact I].
      destruct IHr as (l & r & Hl). exists (r0 :: l), r.
      rewrite inspected_app, Hi, Hl. reflexivity.
  - split; [|exact I]. right.
    unfold processed. cbn [emit raised effects finished].
    rewrite List.app_nil_r, Hi.
    destruct (nonempty_snoc Hk Hw) as (us & s & -> & Hs).
    exists [], r0, us, s. auto.
  - destruct Hk as [Hu _]. split.
    + left. unfold processed. cbn [emit raised effects raise].
      rewrite List.app_nil_r, Hi, Hu. auto.
    + cbn [emit raised effects raise]. rewrite List.app_nil_r, Hi. now exists [], r0.
Qed.

(** X8. When the loop ends, with or without an exception, the cursor of
    the context is at the last event that the loop dealt with (the events
    inspected, but for the one at which it raised); when it dealt with
    none, the cursor is as it was. *)
Theorem cursor_rests_on_last_processed_event (sensor : RunStatusSensorDefinition)
    (context : SensorEvaluationContext) (cursor : option string)
    (batch : list EventLogRecord) :
  let t := scan sensor context batch in
  match last_of (processed t) with
  | None => cursor_after cursor (effects t) = cursor
  | Some r => stored_record_id (cursor_after cursor (effects t)) = Some (storage_id r)
  end.
Proof.
  intros t. rewrite cursor_after_last.
  destruct (proj1 (scan_processed sensor context batch))
    as [[Hp Hu] | (l & r & us & s & Hp & Hu & Hs)]; fold t in Hp, Hu; rewrite Hp, Hu.
  - reflexivity.
  - rewrite last_of_snoc, map_app. simpl. rewrite last_last.
    now apply stored_record_id_writes.
Qed.





Lemma run_ticks_are_ticks keep sensor (envs : list TickEnv) : forall cursor ct,
  In ct (run_ticks keep sensor cursor envs) ->
  exists env, snd ct = tick sensor (fst ct) env.
Proof.
  induction envs as [|env envs IH]; intros cursor ct; simpl; [intros []|].
  intros [<-|Hin]; [now exists env | eapply IH; eassumption].
Qed.



(** X11. The events of the monitored type that are in the log when a
    sensor is ticked for the first time are never inspected: every event
    that a later tick inspects has a greater id than each of them. *)
Theorem history_is_never_inspected (keep_on_raise : bool)
    (sensor : RunStatusSensorDefinition) (cursor : option string) (env : TickEnv)
    (envs : list TickEnv) (old : EventLogRecord) :
  cursor = None \/ (exists s, cursor = Some s /\ is_valid s = false) ->
  In old (event_log (env_instance env)) ->
  has_event_type (event_type sensor) old = true ->
  inspected (effects (tick sensor cursor env)) = []
  /\ Forall (fun ct => Forall (fun r => storage_id old < storage_id r)
                         (inspected (effects (snd ct))))
        (run_ticks keep_on_raise sensor
           (persisted_after keep_on_raise cursor (tick sensor cursor env)) envs).
Proof.
  intros Hfirst Hold Hty.
  assert (Ht : tick sensor cursor env
               = initiate sensor (env_now env)
                   (mkSensorEvaluationContext cursor (env_instance env)
                      (env_repository_name env))).
  { unfold tick, _wrapped_fn. cbn [ctx_cursor].
    destruct Hfirst as [->|(s & -> & Hv)]; [reflexivity | now rewrite Hv]. }
  split; [now rewrite Ht|].
  assert (Hm : exists m, stored_record_id
                           (persisted_after keep_on_raise cursor (tick sensor cursor env))
                         = Some m /\ storage_id old <= m).
  { pose proof (most_recent_event_id_latest (env_instance env) (event_type sensor)) as Hl.
    remember (match get_event_records (env_instance env)
                      (mkEventRecordsFilter (event_type sensor) None) false (Some 1%nat)
              with
              | [r] => storage_id r
              | _ => -1
              end) as m eqn:Heqm.
    exists m. split.
    - rewrite Ht. unfold persisted_after, initiate.
      cbn [emit raised effects finished ctx_instance]. rewrite <- Heqm.
      unfold cursor_after. cbn [cursor_updates flat_map List.app fold_left].
      unfold stored_record_id. now rewrite SerdesFacts.from_json_to_json.
    - destruct Hl as [(r & _ & _ & Hr & Hmax) | [_ Hnone]].
      + now apply Hmax.
      + rewrite (Hnone old Hold) in Hty. discriminate. }
  destruct Hm as (m & Hm & Hle).
  pose proof (run_ticks_start_le keep_on_raise sensor envs
                (persisted_after keep_on_raise cursor (tick sensor cursor env))) as Hstart.
  rewrite Forall_forall in Hstart. apply Forall_forall. intros ct Hct.
  destruct (run_ticks_are_ticks _ _ _ _ _ Hct) as [env' Henv']. rewrite Henv'.
  specialize (Hstart ct Hct). unfold cursor_le in Hstart. rewrite Hm in Hstart.
  eapply Forall_impl; [|apply tick_inspected_spec].
  simpl. intros r (b & Hb & Hlt). rewrite Hb in Hstart. lia.
Qed.

(** ** Failure sensors *)

Lemma failure_sensor_fields (given_name : NameArgument)
    (mj js : option (list MonitoredJob)) (all : bool) (fn : FailureFn)
    (d : RunStatusSensorDefinition) :
  run_failure_sensor_inner given_name mj js all fn = Ok d ->
  run_status d = FAILURE
  /\ PIPELINE_RUN_STATUS_TO_EVENT_TYPE FAILURE = Some (event_type d)
  /\ _run_status_sensor_fn d = _run_failure_sensor fn
  /\ monitored_jobs d = map coerced (effective_jobs mj js)
  /\ monitor_all_repositories d = all.
Proof.
  unfold run_failure_sensor_inner. rewrite run_status_sensor_init. intros Hd.
  apply init_fields in Hd. destruct Hd as (_ & Hs & Hty & Hfn & Hm & Hall & _).
  repeat split; auto. rewrite Hm. unfold effective_jobs.
  destruct mj as [[|x l]|], js as [[|y l']|]; reflexivity.
Qed.


(** X13. In a tick of a failure sensor, the function that was decorated is
    called with a failure context made from the context of the run status
    sensor: its [failure_event] is the event of the record, its run is the
    run of the event, and it carries the name of the sensor and the
    instance of the tick. *)
Theorem failure_sensor_receives_failure_event (given_name : NameArgument)
    (mj js : option (list MonitoredJob)) (all : bool) (fn : FailureFn)
    (d : RunStatusSensorDefinition) (context : SensorEvaluationContext)
    (run : DagsterRun) (r : EventLogRecord) (ev : DagsterEvent) :
  run_failure_sensor_inner given_name mj js all fn = Ok d ->
  dagster_event (event_log_entry r) = Some ev ->
  exists c,
    invoke d context run r = ([CallUser r c], failure_fn_body fn (for_run_failure c))
    /\ failure_event (for_run_failure c) = ev
    /\ rf_dagster_run (for_run_failure c) = run
    /\ rf_sensor_name (for_run_failure c) = name d
    /\ rf_instance (for_run_failure c) = ctx_instance context.
Proof.
  intros Hd Hev. destruct (failure_sensor_fields _ _ _ _ _ Hd) as (_ & _ & Hfn & _).
  unfold invoke. rewrite Hev, Hfn. eexists. split; [reflexivity|]. repeat split.
Qed.

(** X14. A failure sensor invoked directly wants the context, whatever
    the function that was decorated declares: without argument the
    invocation is refused; with a context given by position, or under the
    keyword [context], the function is called once with the failure
    context made from it; under any other keyword the invocation is
    refused. *)
Theorem failure_sensor_invocation_wants_context (given_name : NameArgument)
    (mj js : option (list MonitoredJob)) (all : bool) (fn : FailureFn)
    (d : RunStatusSensorDefinition) (c : RunStatusSensorContext) (k : string) :
  run_failure_sensor_inner given_name mj js all fn = Ok d ->
  let called := mkInvocation [Some c] (Ok (failure_fn_body fn (for_run_failure c))) in
  (exists msg, __call__ d [] [] = refuse (DagsterInvalidInvocationError msg))
  /\ __call__ d [PyContext c] [] = called
  /\ __call__ d [] [(k, PyContext c)]
     = if String.eqb "context" k then called
       else refuse (DagsterInvalidInvocationError
                      "Run status sensor invocation expected argument 'context'.").
Proof.
  intros Hd called. destruct (failure_sensor_fields _ _ _ _ _ Hd) as (_ & _ & Hfn & _).
  unfold __call__, has_at_least_one_parameter, first_param_name. rewrite Hfn.
  cbn [_run_failure_sensor fn_params]. split; [eexists; reflexivity|].
  split; [reflexivity|].
  cbn [List.length Nat.add Nat.eqb Nat.ltb Nat.leb Serdes.lookup].
  destruct (String.eqb "context" k); reflexivity.
Qed.

End TickFacts.

(** C7. A cursor that is encoded and decoded again is the cursor itself,
    the encoding of a cursor is valid, and a cursor serialized under the
    legacy type name [PipelineSensorCursor] decodes to the same cursor. *)
Theorem cursor_round_trip (c : RunStatusSensorCursor) :
  from_json (to_json c) = Ok c
  /\ is_valid (to_json c) = true
  /\ from_json (Serdes.serialize_as "PipelineSensorCursor" c) = Ok c
  /\ is_valid (Serdes.serialize_as "PipelineSensorCursor" c) = true.
Proof.
  assert (from_json (Serdes.serialize_as "PipelineSensorCursor" c) = Ok c) as Hlegacy
      by (apply SerdesFacts.deserialize_serialize_as; discriminate).
  repeat split.
  - apply SerdesFacts.from_json_to_json.
  - apply SerdesFacts.is_valid_to_json.
  - exact Hlegacy.
  - unfold is_valid. unfold from_json in Hlegacy. now rewrite Hlegacy.
Qed.

(** ** The theorems at work on the small instance *)

Import Demo.

Lemma first_tick_skips_history_witness :
  None = None :> option string
  /\ exists m,
       is_latest_event_id (instance_of log_two_failures) "PIPELINE_FAILURE" m
       /\ stored_record_id
            (cursor_after None
               (effects (tick (sensor_of returns_none [] false) None
                           (env_of log_two_failures)))) = Some m.
Proof.
  split; [reflexivity|].
  destruct (@first_tick_skips_history _ (sensor_of returns_none [] false) None
              (env_of log_two_failures) (or_introl eq_refl))
    as (_ & _ & _ & _ & m & Hlatest & _ & Hstored).
  exists m. split; assumption.
Defined.

Lemma cursor_monotonicity_witness :
  raised (tick (sensor_of returns_none [] false) (cursor_at 0) (env_of log_two_failures))
  = None
  /\ Forall (fun ct => forall r2, In r2 (evaluated (effects (snd ct))) ->
                                  storage_id (failure_of 2 "run_a") < storage_id r2)
        (run_ticks false (sensor_of returns_none [] false)
           (persisted_after false (cursor_at 0)
              (tick (sensor_of returns_none [] false) (cursor_at 0)
                 (env_of log_two_failures)))
           [env_of (log_two_failures ++ [failure_of 4 "run_a"])]).
Proof.
  split; [reflexivity|].
  apply (proj2 (proj2 (@cursor_monotonicity _ false (sensor_of returns_none [] false)
                         (cursor_at 0) (env_of log_two_failures)
                         [env_of (log_two_failures ++ [failure_of 4 "run_a"])]))).
  - reflexivity.
  - vm_compute. left. reflexivity.
Defined.

(** A sensor for [job_b] alone, a hundred events behind: every tick
    inspects five events and moves the cursor by five, and the twenty-first
    tick finds nothing left. *)
Lemma catch_up_five_at_a_time :
  map (fun ct => List.length (inspected (effects (snd ct))))
      (run_ticks false (sensor_of skips [JobDef "job_b"] false) (cursor_at 0)
         (repeat (env_of log_hundred) 21))
  = (repeat 5%nat 20 ++ [0%nat])%list
  /\ map stored_record_id
       (persisted_cursors false (sensor_of skips [JobDef "job_b"] false) (cursor_at 0)
          (repeat (env_of log_hundred) 21))
     = (map (fun k => Some (5 * Z.of_nat k)) (seq 0 21) ++ [Some 100])%list.
Proof. split; vm_compute; reflexivity. Qed.

Lemma unresolved_run_is_skipped_witness :
  List.length (get_run_records (ctx_instance (context_of 0 log_unknown_run))
                 [entry_run_id (event_log_entry (failure_of 4 "run_gone"))]) <> 1%nat
  /\ scan (sensor_of skips [JobDef "job_b"] false) (context_of 0 log_unknown_run)
       [failure_of 4 "run_gone"; failure_of 5 "run_a"]
     = emit [Inspect (failure_of 4 "run_gone");
             UpdateCursor (to_json (mkCursor 4 "1970-01-01T00:00:4"))]
         (scan (sensor_of skips [JobDef "job_b"] false) (context_of 0 log_unknown_run)
            [failure_of 5 "run_a"]).
Proof.
  assert (List.length (get_run_records (ctx_instance (context_of 0 log_unknown_run))
                         [entry_run_id (event_log_entry (failure_of 4 "run_gone"))])
          <> 1%nat) as Hlen by (simpl; lia).
  split; [exact Hlen|].
  apply (@unresolved_run_is_skipped _ (sensor_of skips [JobDef "job_b"] false)
           (context_of 0 log_unknown_run) (failure_of 4 "run_gone")
           [failure_of 5 "run_a"] Hlen).
Defined.

Lemma first_match_decides_witness :
  verdict (sensor_of returns_none [] false) (context_of 0 log_two_failures)
    (failure_of 2 "run_a") = Matched record_a
  /\ scan (sensor_of returns_none [] false) (context_of 0 log_two_failures)
       ([] ++ [failure_of 2 "run_a"; failure_of 3 "run_b"])
     = emit
         ((effects (scan (sensor_of returns_none [] false)
                      (context_of 0 log_two_failures) [])
           ++ [Inspect (failure_of 2 "run_a");
               CallUser (failure_of 2 "run_a")
                 (passed (context_of 0 log_two_failures) run_a)])
          ++ [UpdateCursor (to_json (mkCursor 2 "2023-01-01T00:00:01"));
              Yield (PipelineRunReaction run_a "FAILURE" None)])
         (scan (sensor_of returns_none [] false) (context_of 0 log_two_failures)
            [failure_of 3 "run_b"]).
Proof.
  split; [reflexivity|].
  apply (@first_match_decides _ (sensor_of returns_none [] false)
           (context_of 0 log_two_failures) [] [failure_of 3 "run_b"]
           (failure_of 2 "run_a") record_a
           [CallUser (failure_of 2 "run_a") (passed (context_of 0 log_two_failures) run_a)]
           (UReturn RetNone)).
  - constructor.
  - reflexivity.
  - reflexivity.
Defined.

(** The tick of the small instance over two failures, with a user function
    that returns [None]: the first failure matches, and the tick inspects
    the second one too and yields a reaction for each. *)
Lemma tick_goes_on_after_reaction :
  tick (sensor_of returns_none [] false) (cursor_at 0) (env_of log_two_failures)
  = scan (sensor_of returns_none [] false) (context_of 0 log_two_failures)
      [failure_of 2 "run_a"; failure_of 3 "run_b"]
  /\ inspected (effects (scan (sensor_of returns_none [] false)
                           (context_of 0 log_two_failures)
                           [failure_of 2 "run_a"; failure_of 3 "run_b"]))
     = [failure_of 2 "run_a"; failure_of 3 "run_b"]
  /\ outputs (effects (scan (sensor_of returns_none [] false)
                         (context_of 0 log_two_failures)
                         [failure_of 2 "run_a"; failure_of 3 "run_b"]))
     = [PipelineRunReaction run_a "FAILURE" None; PipelineRunReaction run_b "FAILURE" None]
  /\ ~ stops_at_first_match (sensor_of returns_none [] false)
        (context_of 0 log_two_failures)
        [failure_of 2 "run_a"; failure_of 3 "run_b"].
Proof.
  split; [vm_compute; reflexivity|].
  split; [vm_compute; reflexivity|].
  split; [vm_compute; reflexivity|].
  intros Hstops.
  destruct (Hstops [] (failure_of 2 "run_a") [failure_of 3 "run_b"] record_a
              eq_refl (Forall_nil _) eq_refl) as [Hinspected _].
  vm_compute in Hinspected. discriminate Hinspected.
Qed.

Lemma run_without_origin_raises_witness :
  external_pipeline_origin (dagster_run record_manual) = None
  /\ scan (sensor_of returns_none [] false) (context_of 1 log_manual)
       [failure_of 2 "run_manual"; failure_of 3 "run_b"]
     = mkTickResult [Inspect (failure_of 2 "run_manual")]
         (Some (CheckError "Expected non-None value")).
Proof.
  split; [reflexivity|].
  apply (@run_without_origin_raises _ (sensor_of returns_none [] false)
           (context_of 1 log_manual) (failure_of 2 "run_manual") record_manual
           [failure_of 3 "run_b"]); reflexivity.
Defined.

(** The tick over the log with the run executed by hand: the failure of
    [run_a] is handled, the failure of the run without origin ends the
    tick with a [CheckError], and the failure of [run_b] is not reached. *)
Lemma tick_over_manual_run :
  map storage_id
    (inspected (effects (tick (sensor_of returns_none [] false) (cursor_at 0)
                           (env_of log_manual)))) = [1; 2]
  /\ map stored_record_id
       (map Some (cursor_updates
                    (effects (tick (sensor_of returns_none [] false) (cursor_at 0)
                                (env_of log_manual))))) = [Some 1]
  /\ raised (tick (sensor_of returns_none [] false) (cursor_at 0) (env_of log_manual))
     = Some (CheckError "Expected non-None value").
Proof. vm_compute. repeat split; reflexivity. Qed.

Lemma user_exception_is_captured_witness :
  verdict (sensor_of raises [] false) (context_of 0 log_two_failures)
    (failure_of 2 "run_a") = Matched record_a
  /\ exists before,
       scan (sensor_of raises [] false) (context_of 0 log_two_failures)
         [failure_of 2 "run_a"; failure_of 3 "run_b"]
       = emit (before
               ++ [UpdateCursor (to_json (mkCursor 2 "2023-01-01T00:00:01"));
                   Yield (PipelineRunReaction run_a "FAILURE"
                            (Some (mkSerializableErrorInfo "ValueError: boom"
                                     ["frame 1"; "frame 2"] "ValueError")))])
              (scan (sensor_of raises [] false) (context_of 0 log_two_failures)
                 [failure_of 3 "run_b"])
       /\ inspected before = [failure_of 2 "run_a"].
Proof.
  split; [reflexivity|].
  destruct (@user_exception_is_captured _ (sensor_of raises [] false)
              (context_of 0 log_two_failures) (failure_of 2 "run_a") record_a
              [failure_of 3 "run_b"]
              [CallUser (failure_of 2 "run_a") (passed (context_of 0 log_two_failures) run_a)]
              [] boom eq_refl (or_introl (conj eq_refl eq_refl)))
    as (before & Hscan & Hinspected & _).
  exists before. split; [exact Hscan | exact Hinspected].
Defined.

Lemma monitor_all_with_jobs_is_accepted_witness :
  opt_truthy (Some [JobDef "job_a"]) || opt_truthy (@None (list MonitoredJob)) = true
  /\ exists d,
       run_status_sensor "FAILURE" None (Some [JobDef "job_a"]) None true returns_none = Ok d
       /\ monitor_all_repositories d = true
       /\ truthy (monitored_jobs d) = true.
Proof.
  split; [reflexivity|].
  apply (@monitor_all_with_jobs_is_accepted _ "FAILURE" None (Some [JobDef "job_a"]) None
           returns_none "PIPELINE_FAILURE"); reflexivity.
Defined.

(** The registration that the documentation of [run_status_sensor] says is
    an error returns a definition. *)
Lemma monitor_all_with_jobs_registers :
  run_status_sensor "FAILURE" None (Some [JobDef "job_a"]) None true returns_none
  = Ok (sensor_of returns_none [JobDef "job_a"] true).
Proof. reflexivity. Qed.

(** With the arguments that fit, the user function is called once. *)
Lemma direct_invocation_calls_once :
  __call__ (sensor_of returns_none [] false) [PyContext a_context] []
  = mkInvocation [Some a_context] (Ok (UReturn RetNone))
  /\ __call__ (sensor_of returns_none [] false) [] [("context", PyContext a_context)]
     = mkInvocation [Some a_context] (Ok (UReturn RetNone))
  /\ __call__ (sensor_of no_params [] false) [] []
     = mkInvocation [None] (Ok (UReturn RetNone)).
Proof. repeat split; reflexivity. Qed.

(** A context passed under a keyword that is not the name of the
    parameter: the number of arguments is the one looked for, and the
    invocation is refused without a call of the user function. *)
Lemma keyword_of_another_name_is_refused :
  __call__ (sensor_of returns_none [] false) [] [("ctx", PyContext a_context)]
  = refuse (DagsterInvalidInvocationError
              "Run status sensor invocation expected argument 'context'.")
  /\ __call__ (sensor_of returns_none [] false) [PyNone] []
     = refuse (DagsterInvalidInvocationError
                 "Context must be provided for direct invocation of run status sensor.")
  /\ ~ called_once_when_arity_matches (sensor_of returns_none [] false) []
        [("ctx", PyContext a_context)].
Proof.
  split; [reflexivity|]. split; [reflexivity|].
  intros Hcalled. destruct (Hcalled eq_refl) as [arg Harg]. discriminate Harg.
Qed.

(** ** The further theorems at work on the small instance *)

Lemma scope_of_monitored_jobs_witness :
  run_status_sensor "FAILURE" None (Some [JobDef "job_a"]) None false returns_none
  = Ok (sensor_of returns_none [JobDef "job_a"] false)
  /\ external_pipeline_origin run_a = origin_in "loc" "repo"
  /\ job_match (sensor_of returns_none [JobDef "job_a"] false)
       (context_of 0 log_two_failures) run_a = Ok true
  /\ job_match (sensor_of returns_none [JobDef "job_a"] false)
       (context_of 0 log_two_failures) run_b = Ok false.
Proof.
  split; [reflexivity|]. split; [reflexivity|]. split.
  - destruct (@scope_of_monitored_jobs _ "FAILURE" None (Some [JobDef "job_a"]) None false
                returns_none (sensor_of returns_none [JobDef "job_a"] false)
                (context_of 0 log_two_failures) run_a
                (mkExternalPipelineOrigin
                   (mkExternalRepositoryOrigin (mkRepositoryLocationOrigin "loc") "repo"))
                eq_refl eq_refl) as (b & Hb & Hiff).
    rewrite Hb. f_equal. apply Hiff. right. left. split; [reflexivity|].
    right. left. reflexivity.
  - reflexivity.
Defined.


Lemma init_splits_monitored_jobs_witness :
  __init__ "on_failure" "FAILURE" returns_none (Some mixed_jobs) false
  = Ok (sensor_of returns_none (map coerced mixed_jobs) false)
  /\ other_repos (sensor_of returns_none (map coerced mixed_jobs) false)
     = [mkRepositorySelector "far" "__repository__"]
  /\ (List.length (other_repos (sensor_of returns_none (map coerced mixed_jobs) false))
      + List.length (other_repo_jobs (sensor_of returns_none (map coerced mixed_jobs) false))
      + List.length (current_repo_jobs (sensor_of returns_none (map coerced mixed_jobs) false))
      = 3)%nat.
Proof.
  split; [reflexivity|]. split; [reflexivity|].
  exact (proj1 (proj2 (@init_splits_monitored_jobs _ "on_failure" "FAILURE" returns_none
                         (Some mixed_jobs) false
                         (sensor_of returns_none (map coerced mixed_jobs) false) eq_refl))).
Defined.

Lemma batch_without_match_only_moves_cursor_witness :
  Forall (is_skipped (sensor_of skips [JobDef "job_b"] false) (context_of 0 log_unknown_run))
    [failure_of 4 "run_gone"; failure_of 5 "run_a"]
  /\ outputs (effects (scan (sensor_of skips [JobDef "job_b"] false)
                         (context_of 0 log_unknown_run)
                         [failure_of 4 "run_gone"; failure_of 5 "run_a"])) = []
  /\ map (fun s => stored_record_id (Some s))
       (cursor_updates (effects (scan (sensor_of skips [JobDef "job_b"] false)
                                   (context_of 0 log_unknown_run)
                                   [failure_of 4 "run_gone"; failure_of 5 "run_a"])))
     = [Some 4; Some 5].
Proof.
  assert (Forall (is_skipped (sensor_of skips [JobDef "job_b"] false)
                    (context_of 0 log_unknown_run))
            [failure_of 4 "run_gone"; failure_of 5 "run_a"]) as Hskipped
      by (repeat constructor).
  split; [exact Hskipped|].
  destruct (@batch_without_match_only_moves_cursor _ (sensor_of skips [JobDef "job_b"] false)
              (context_of 0 log_unknown_run)
              [failure_of 4 "run_gone"; failure_of 5 "run_a"] Hskipped)
    as (_ & Ho & _ & _ & Hu).
  split; [exact Ho | exact Hu].
Defined.

Lemma caught_up_tick_does_nothing_witness :
  from_json (to_json (mkCursor 3 "2023-01-01T00:00:00")) = Ok (mkCursor 3 "2023-01-01T00:00:00")
  /\ pendulum_parse (update_timestamp (mkCursor 3 "2023-01-01T00:00:00"))
     = Some "2023-01-01T00:00:00"
  /\ tick (sensor_of returns_none [] false) (cursor_at 3) (env_of log_two_failures) = finished.
Proof.
  split; [reflexivity|]. split; [reflexivity|].
  apply (proj2 (@caught_up_tick_does_nothing _ (sensor_of returns_none [] false)
                  (to_json (mkCursor 3 "2023-01-01T00:00:00"))
                  (mkCursor 3 "2023-01-01T00:00:00") "2023-01-01T00:00:00"
                  (env_of log_two_failures) eq_refl eq_refl)).
  intros r Hin _. simpl in Hin.
  destruct Hin as [<-|[<-|[<-|[]]]]; simpl; lia.
Defined.

Lemma history_is_never_inspected_witness :
  In (failure_of 3 "run_b") (event_log (env_instance (env_of log_two_failures)))
  /\ has_event_type (event_type (sensor_of returns_none [] false)) (failure_of 3 "run_b") = true
  /\ Forall (fun ct => Forall (fun r => storage_id (failure_of 3 "run_b") < storage_id r)
                         (inspected (effects (snd ct))))
        (run_ticks false (sensor_of returns_none [] false)
           (persisted_after false None
              (tick (sensor_of returns_none [] false) None (env_of log_two_failures)))
           [env_of (log_two_failures ++ [failure_of 4 "run_a"])]).
Proof.
  assert (In (failure_of 3 "run_b") (event_log (env_instance (env_of log_two_failures))))
    as Hin by (simpl; auto).
  split; [exact Hin|]. split; [reflexivity|].
  exact (proj2 (@history_is_never_inspected _ false (sensor_of returns_none [] false) None
                  (env_of log_two_failures)
                  [env_of (log_two_failures ++ [failure_of 4 "run_a"])]
                  (failure_of 3 "run_b") (or_introl eq_refl) Hin eq_refl)).
Defined.

(** The tick after the first one inspects the failure that came in, and
    none of those that were there before. *)
Lemma only_the_new_failure_is_inspected :
  map (fun ct => map storage_id (inspected (effects (snd ct))))
    (run_ticks false (sensor_of returns_none [] false) None
       [env_of log_two_failures; env_of (log_two_failures ++ [failure_of 4 "run_a"])])
  = [[]; [4]].
Proof. vm_compute. reflexivity. Qed.

Lemma failure_sensor_receives_failure_event_witness :
  run_failure_sensor_inner NameIsNone None None false notify = Ok (failure_sensor_of notify)
  /\ dagster_event (event_log_entry (failure_of 2 "run_a"))
     = Some (mkDagsterEvent "PIPELINE_FAILURE" "failed")
  /\ snd (invoke (failure_sensor_of notify) (context_of 0 log_two_failures) run_a
            (failure_of 2 "run_a"))
     = UReturn (RetOutput (SkipReason "failed")).
Proof.
  split; [reflexivity|]. split; [reflexivity|].
  destruct (@failure_sensor_receives_failure_event _ NameIsNone None None false notify
              (failure_sensor_of notify) (context_of 0 log_two_failures) run_a
              (failure_of 2 "run_a") (mkDagsterEvent "PIPELINE_FAILURE" "failed")
              eq_refl eq_refl) as (c & Hinvoke & Hev & _).
  rewrite Hinvoke. cbn [snd notify failure_fn_body]. now rewrite Hev.
Defined.

Lemma failure_sensor_invocation_wants_context_witness :
  run_failure_sensor_inner NameIsNone None None false notify = Ok (failure_sensor_of notify)
  /\ __call__ (failure_sensor_of notify) [PyContext a_context] []
     = mkInvocation [Some a_context] (Ok (UReturn (RetOutput (SkipReason "failed"))))
  /\ __call__ (failure_sensor_of notify) [] [("fail_context", PyContext a_context)]
     = refuse (DagsterInvalidInvocationError
                 "Run status sensor invocation expected argument 'context'.").
Proof.
  split; [reflexivity|].
  destruct (@failure_sensor_invocation_wants_context _ NameIsNone None None false notify
              (failure_sensor_of notify) a_context "fail_context" eq_refl)
    as (_ & Hpos & Hkw).
  split; [exact Hpos | exact Hkw].
Defined.
